(** * doktor: conversation windowing and streaming back-end dispatch

    A shallow embedding of [doktor/chat.py] and of the parts of
    [doktor/convo_db.py] it calls, with the properties of the windower,
    the token estimator, the back-end adapters and the driving loop. *)

From Stdlib Require Import ZArith NArith List Bool Lia String Ascii.
Import ListNotations.
Open Scope Z_scope.

Set Warnings "-register-all".


(** ** Python values *)

(** A Python [str] is a sequence of Unicode code points; [len] counts code
    points, not bytes. *)
Definition codepoint := N.
Definition str := list codepoint.

(** A literal of the source, written as a Rocq string of ASCII characters. *)
Definition lit (s : string) : str := map N_of_ascii (list_ascii_of_string s).

(** The one-character string of the escape [\n]. *)
Definition NL : str := [10%N].

Definition len (s : str) : Z := Z.of_nat (List.length s).

Fixpoint str_eqb (a b : str) : bool :=
  match a, b with
  | [], [] => true
  | x :: a', y :: b' => N.eqb x y && str_eqb a' b'
  | _, _ => false
  end.

(** Truth value of a string in a condition: non-empty. *)
Definition truthy_str (s : str) : bool :=
  match s with [] => false | _ :: _ => true end.

(** [s.startswith(p)] *)
Fixpoint startswith (p s : str) : bool :=
  match p, s with
  | [], _ => true
  | x :: p', y :: s' => N.eqb x y && startswith p' s'
  | _ :: _, [] => false
  end.

(** Characters removed by [str.strip()] without argument: the code points
    for which [str.isspace] holds. *)
Definition isspace (c : codepoint) : bool :=
  ((9 <=? c) && (c <=? 13) || (28 <=? c) && (c <=? 32)
   || (c =? 133) || (c =? 160) || (c =? 5760)
   || (8192 <=? c) && (c <=? 8202)
   || (c =? 8232) || (c =? 8233) || (c =? 8239) || (c =? 8287)
   || (c =? 12288))%N.

Fixpoint lstrip (s : str) : str :=
  match s with
  | c :: s' => if isspace c then lstrip s' else s
  | [] => []
  end.

Definition rstrip (s : str) : str := rev (lstrip (rev s)).

Definition strip (s : str) : str := rstrip (lstrip s).

(** Length of the UTF-8 encoding of a string: the byte length the
    specification speaks of. *)
Definition utf8_width (c : codepoint) : Z :=
  if (c <? 128)%N then 1
  else if (c <? 2048)%N then 2
  else if (c <? 65536)%N then 3
  else 4.

Definition byteLength (s : str) : Z :=
  fold_right (fun c n => utf8_width c + n) 0 s.

(** Rounded-up quotient, for the estimate as the specification words it. *)
Definition ceil_div (a b : Z) : Z := (a + b - 1) / b.

(** ** Stored conversation ([convo_db.py]) *)

(** A dictionary with the two keys ["role"] and ["content"], as built by
    [load_conversation_history] and read by [messages_to_prompt]. *)
Module Message.
Record t := mk { role : str; content : str }.
End Message.

(** A row of the conversation table, with the columns the sources use. *)
Module ConversationEntry.
Record t := mk {
  role : str;
  content : str;
  session_id : option Z;
  model : option str;
  created_at : Z
}.
End ConversationEntry.

Module State.
Record t := mk { model : str; max_tokens : Z; session_id : option Z }.
End State.

(** The database session: the rows of the table in the order the query
    returns them, and the clock read by [datetime.utcnow()] in seconds. *)
Module Db.
Record t := mk { rows : list ConversationEntry.t; utcnow : Z }.
End Db.

Definition weeks (n : Z) : Z := n * 604800.

Definition session_matches (sid : Z) (e : ConversationEntry.t) : bool :=
  match ConversationEntry.session_id e with
  | Some s => s =? sid
  | None => false
  end.

Definition get_entries_past_week (db_session : Db.t) (session_id : option Z)
  : list ConversationEntry.t :=
  let one_week_ago := Db.utcnow db_session - weeks 1 in
  let recent :=
    filter (fun e => one_week_ago <=? ConversationEntry.created_at e)
           (Db.rows db_session) in
  match session_id with
  | Some sid => filter (session_matches sid) recent
  | None => recent
  end.

Definition add_entry (db_session : Db.t) (role content : str)
    (session_id : option Z) (model : option str) : Db.t :=
  let entry :=
    ConversationEntry.mk role content session_id model (Db.utcnow db_session) in
  Db.mk (Db.rows db_session ++ [entry]) (Db.utcnow db_session).

(** ** Token estimate and windowing ([chat.py]) *)

Definition count_tokens (text : str) : Z := len text / 4.

(** The text whose tokens are counted for an entry:
    [f"{entry.role}: {entry.content}\n"]. *)
Definition entry_text (role content : str) : str :=
  role ++ lit ": " ++ content ++ NL.

Definition entry_token_count (role content : str) : Z :=
  count_tokens (entry_text role content).

(** The loop of [load_conversation_history] over [reversed(entries)]:
    [token_count] and [conversation_text] are the loop's two variables, and
    the [else] branch is the [break]. *)
Fixpoint scan (max_tokens : Z) (newest_first : list ConversationEntry.t)
    (token_count : Z) (conversation_text : list Message.t) : list Message.t :=
  match newest_first with
  | [] => conversation_text
  | entry :: older =>
      let n := entry_token_count (ConversationEntry.role entry)
                                 (ConversationEntry.content entry) in
      if token_count + n <=? max_tokens then
        scan max_tokens older (token_count + n)
             (conversation_text
                ++ [Message.mk (ConversationEntry.role entry)
                               (ConversationEntry.content entry)])
      else conversation_text
  end.

(** Lines 39 to 49: the loop from an empty list, then
    [conversation_text[::-1]]. *)
Definition window (entries : list ConversationEntry.t) (max_tokens : Z)
  : list Message.t :=
  rev (scan max_tokens (rev entries) 0 []).

Definition load_conversation_history (db_session : Db.t) (state : State.t)
  : list Message.t :=
  let max_tokens := State.max_tokens state in
  let session_id := State.session_id state in
  let entries := get_entries_past_week db_session session_id in
  window entries max_tokens.

(** What the windower keeps of an entry, and the entry a message is read
    back as when a window is windowed again. *)
Definition as_message (e : ConversationEntry.t) : Message.t :=
  Message.mk (ConversationEntry.role e) (ConversationEntry.content e).

Definition as_entry (m : Message.t) : ConversationEntry.t :=
  ConversationEntry.mk (Message.role m) (Message.content m) None None 0.

Definition message_tokens (m : Message.t) : Z :=
  entry_token_count (Message.role m) (Message.content m).

Definition total_tokens (ms : list Message.t) : Z :=
  fold_right (fun m n => message_tokens m + n) 0 ms.

(** [messages_to_prompt]: one line [role: content] per message. *)
Definition messages_to_prompt (messages : list Message.t) : str :=
  fold_left
    (fun prompt message =>
       prompt ++ Message.role message ++ lit ": "
              ++ Message.content message ++ NL)
    messages [].

(** ** Objects, exceptions and the outside world *)

(** What [json.loads] returns (numbers with a fraction are left out). *)
Inductive value :=
| VNone
| VBool (b : bool)
| VInt (n : Z)
| VStr (s : str)
| VList (items : list value)
| VDict (items : list (str * value)).

Inductive exn :=
| KeyError (key : str)
| ValueError (msg : str)
| TypeError
| IndexError
| AttributeError
| UnicodeDecodeError
| JSONDecodeError
| ConnectionError
| ConfigError (modelName : str)
| Exception_ (msg : str)
| SystemExit (code : Z).

(** [except Exception] catches everything but the exit request. *)
Definition is_Exception (e : exn) : bool :=
  match e with SystemExit _ => false | _ => true end.

(** Whether an exception, left uncaught, ends the process. *)
Definition process_exit (e : exn) : bool := negb (is_Exception e).

Fixpoint dict_get {A : Type} (d : list (str * A)) (key : str) : option A :=
  match d with
  | [] => None
  | (k, v) :: d' => if str_eqb k key then Some v else dict_get d' key
  end.

Definition dict_mem {A : Type} (key : str) (d : list (str * A)) : bool :=
  match dict_get d key with Some _ => true | None => false end.

(** [v[key]] for a string key. *)
Definition getitem (v : value) (key : str) : exn + value :=
  match v with
  | VDict items =>
      match dict_get items key with
      | Some x => inr x
      | None => inl (KeyError key)
      end
  | _ => inl TypeError
  end.

(** [v == s] for a string [s]. *)
Definition eq_str (v : value) (s : str) : bool :=
  match v with VStr t => str_eqb t s | _ => false end.

Fixpoint is_substring (p s : str) : bool :=
  startswith p s
  || match s with [] => false | _ :: s' => is_substring p s' end.

(** [key in v] for a string key. *)
Definition contains (v : value) (key : str) : exn + bool :=
  match v with
  | VDict items => inr (dict_mem key items)
  | VList items => inr (existsb (fun x => eq_str x key) items)
  | VStr s => inr (is_substring key s)
  | _ => inl TypeError
  end.

(** [s + v] for a string [s]. *)
Definition str_add (s : str) (v : value) : exn + str :=
  match v with VStr t => inr (s ++ t) | _ => inl TypeError end.

Definition bytes := list N.

(** A streamed chunk of the OpenAI client, as far as
    [chunk.choices[0].delta.content] reads it. *)
Module Chunk.
Inductive content :=
| Absent                (* no such attribute *)
| IsNone
| Text (s : str).
Record t := mk { choices : list content }.
End Chunk.

Inductive request :=
| AnthropicMessages (api_key model : str) (max_tokens : Z)
                    (messages : list Message.t)
| OllamaGenerate (model prompt : str)
| OpenAICompletion (model : str) (messages : list Message.t).

(** What a request meets: a failure of the transport, or a response whose
    items (lines, chunks) arrive and which then ends, normally or with a
    failure of the transport. *)
Inductive reply (A : Type) :=
| Refused (e : exn)
| Opened (items : list A) (cut : option exn).
Arguments Refused {A} e.
Arguments Opened {A} items cut.

Inductive event :=
| Printed (v : value)
| Sent (r : request)
| Slept (ms : Z).

(** The process's surroundings: its environment variables, what the
    successive calls of [requests.post] and of the OpenAI client will meet,
    and the effects observed so far, oldest first. *)
Record world := mkWorld {
  environ : list (str * str);
  http : list (reply bytes);
  openai_api : list (reply Chunk.t);
  log : list event
}.

Definition emit (e : event) (w : world) : world :=
  mkWorld (environ w) (http w) (openai_api w) (log w ++ [e]).

Definition set_http (h : list (reply bytes)) (w : world) : world :=
  mkWorld (environ w) h (openai_api w) (log w).

Definition set_openai_api (h : list (reply Chunk.t)) (w : world) : world :=
  mkWorld (environ w) (http w) h (log w).

(** Code that may raise, over a state [S]: the state after it, with the
    exception or the result. *)
Definition run (S A : Type) : Type := S -> (exn + A) * S.

Definition ret {S A : Type} (a : A) : run S A := fun s => (inr a, s).

Definition raise {S A : Type} (e : exn) : run S A := fun s => (inl e, s).

Definition bind {S A B : Type} (c : run S A) (k : A -> run S B) : run S B :=
  fun s =>
    match c s with
    | (inl e, s') => (inl e, s')
    | (inr a, s') => k a s'
    end.

Declare Scope run_scope.
Delimit Scope run_scope with run.
Notation "x <- c ;; k" := (bind c (fun x => k))
  (at level 61, c at next level, right associativity) : run_scope.
Notation "c ;; k" := (bind c (fun _ => k))
  (at level 61, right associativity) : run_scope.

(** A pure computation that may raise, and its sequencing. *)
Notation "'let?' x := r 'in' k" :=
  (match r with inl e => inl e | inr x => k end)
  (at level 10, x name, r at level 100, k at level 200).

(** A call in the process's surroundings. *)
Definition call (A : Type) : Type := run world A.

Definition exit {S A : Type} (code : Z) : run S A := raise (SystemExit code).

Definition print (v : value) : call unit :=
  fun w => (inr tt, emit (Printed v) w).

(** The helpers of the colour module print their message; the colour is
    left out. *)
Definition print_red (msg : str) : call unit := print (VStr msg).

Definition print_yellow (msg : str) : call unit := print (VStr msg).

(** [requests.post]: the request leaves, and the head of the script says
    what it meets; with nothing left to meet, the connection fails. *)
Definition requests_post (r : request) : call (list bytes * option exn) :=
  fun w =>
    let w1 := emit (Sent r) w in
    match http w1 with
    | [] => (inl ConnectionError, w1)
    | Refused e :: later => (inl e, set_http later w1)
    | Opened items cut :: later => (inr (items, cut), set_http later w1)
    end.

(** [OpenAI().chat.completions.create(..., stream=True)], as one call: the
    head of the script says what the call as a whole meets, and [Sent]
    records the call. What the client does inside the call to reach that
    (its own repeated connections and its pauses between them) is not
    modelled. *)
Definition openai_create (r : request) : call (list Chunk.t * option exn) :=
  fun w =>
    let w1 := emit (Sent r) w in
    match openai_api w1 with
    | [] => (inl ConnectionError, w1)
    | Refused e :: later => (inl e, set_openai_api later w1)
    | Opened items cut :: later =>
        (inr (items, cut), set_openai_api later w1)
    end.

(** ** Generators *)

(** A generator object is suspended code: resumed in a world, it yields a
    value and suspends again, or returns, or raises. Creating it runs
    nothing. *)
Inductive gen : Type :=
| Suspended (resume : world -> resumed)
with resumed : Type :=
| Yielded (v : value) (w : world) (rest : gen)
| Returned (w : world)
| Raised (e : exn) (w : world).

Definition next (g : gen) (w : world) : resumed :=
  match g with Suspended resume => resume w end.

(** Calling a generator function: the generator object, and no effect. *)
Definition generator_call (body : gen) : call gen := ret body.

(** The end of the iteration over a response. *)
Definition finish (cut : option exn) (w : world) : resumed :=
  match cut with
  | None => Returned w
  | Some e => Raised e w
  end.

(** Exhausting a generator with a consumer that does nothing else: the
    fragments, how it ended, and the world then. *)
Fixpoint drain (g : gen) (w : world) {struct g}
  : list value * option exn * world :=
  match g with
  | Suspended resume =>
      match resume w with
      | Yielded v w1 rest =>
          let '(vs, out, w2) := drain rest w1 in (v :: vs, out, w2)
      | Returned w1 => ([], None, w1)
      | Raised e w1 => ([], Some e, w1)
      end
  end.

(** ** The [retrying] decorator *)

(** [Retrying.call]: the function is called; when the call raises an
    [Exception] (the default rejects each of them) and attempts remain,
    the wrapper sleeps [wait_fixed] milliseconds and calls again; the last
    exception is raised. An exit request goes through at once, and a call
    that returns is accepted as it is. *)
Fixpoint retrying_call {A : Type} (attempts_left : nat) (wait_fixed : Z)
    (fn : call A) : call A :=
  fun w =>
    match fn w with
    | (inr a, w1) => (inr a, w1)
    | (inl e, w1) =>
        if is_Exception e then
          match attempts_left with
          | O => (inl e, w1)
          | S n => retrying_call n wait_fixed fn (emit (Slept wait_fixed) w1)
          end
        else (inl e, w1)
    end.

Definition retry {A : Type} (stop_max_attempt_number : nat) (wait_fixed : Z)
    (fn : call A) : call A :=
  retrying_call (stop_max_attempt_number - 1) wait_fixed fn.

(** ** Back-end adapters *)

(** What the sources import and this development does not look into:
    [bytes.decode('utf-8')], [json.loads], [get_model_config] of the
    configuration module, and the constant [ANSWER] of the prompt module. *)
Class Library := {
  decode_utf8 : bytes -> exn + str;
  json_loads : str -> exn + value;
  get_model_config : str -> exn + list (str * value);
  ANSWER : str
}.

Definition ANTHROPIC_MODEL_MAP : list (str * str) :=
  [ (lit "opus", lit "claude-3-opus-20240229");
    (lit "sonnet", lit "claude-3-sonnet-20240229");
    (lit "haiku", lit "claude-3-haiku-20240307") ].

(** Lines 68 to 70 of [chat_with_anthropic]: the subscript raises
    [KeyError] for a name that is not a key; then comes the guard. *)
Definition actual_model_of (model : str) : exn + str :=
  match dict_get ANTHROPIC_MODEL_MAP model with
  | None => inl (KeyError model)
  | Some actual_model =>
      if negb (truthy_str actual_model) then
        inl (ValueError (lit "Model " ++ model
                           ++ lit " not found in ANTHROPIC_MODEL_MAP"))
      else inr actual_model
  end.

(** A [for] loop over the items of a response inside a generator: the body
    yields a value for an item, or nothing, or raises. *)
Fixpoint for_each {A : Type} (body : A -> call (option value))
    (items : list A) (cut : option exn) (w : world) : resumed :=
  match items with
  | [] => finish cut w
  | x :: later =>
      match body x w with
      | (inl e, w1) => Raised e w1
      | (inr (Some v), w1) => Yielded v w1 (Suspended (for_each body later cut))
      | (inr None, w1) => for_each body later cut w1
      end
  end.

Section Adapters.
Context {lib : Library}.

(** The body of the loop of [chat_with_anthropic] for one line. *)
Definition anthropic_line (line : bytes) : exn + option value :=
  let? line := decode_utf8 line in
  if startswith (lit "data: ") line then
    let? chunk := json_loads (strip (skipn 6 line)) in
    let? type := getitem chunk (lit "type") in
    if eq_str type (lit "content_block_delta") then
      let? delta := getitem chunk (lit "delta") in
      let? text := getitem delta (lit "text") in
      inr (Some text)
    else if eq_str type (lit "error") then
      let? error := getitem chunk (lit "error") in
      let? msg :=
        str_add (lit "Error receiving response from anthropic server: ")
                error in
      inl (Exception_ msg)
    else inr None
  else inr None.

(** [chat_with_anthropic] as written under its decorator: a generator
    function, whose call gives this generator. *)
Definition chat_with_anthropic_def (messages : list Message.t)
    (state : State.t) : gen :=
  Suspended (fun w =>
    match actual_model_of (State.model state) with
    | inl e => Raised e w
    | inr actual_model =>
        let max_tokens := 4096 in
        match dict_get (environ w) (lit "ANTHROPIC_API_KEY") with
        | None =>
            let w1 := snd (print_red (lit "Please set env var ANTHROPIC_API_KEY") w) in
            Raised (SystemExit 1) w1
        | Some api_key =>
            match requests_post
                    (AnthropicMessages api_key actual_model max_tokens
                                       messages) w with
            | (inl e, w1) => Raised e w1
            | (inr (lines, cut), w1) =>
                for_each (fun line w' => (anthropic_line line, w'))
                         lines cut w1
            end
        end
    end).

(** The name [chat_with_anthropic] after
    [@retry(stop_max_attempt_number=3, wait_fixed=1000)]. *)
Definition chat_with_anthropic (messages : list Message.t)
    (state : State.t) : call gen :=
  retry 3 1000 (generator_call (chat_with_anthropic_def messages state)).

(** The body of the loop of [chat_with_ollama] for one line. *)
Definition ollama_line (line : bytes) : exn + option value :=
  match line with
  | [] => inr None
  | _ :: _ =>
      let? text := decode_utf8 line in
      let? chunk := json_loads text in
      let? has_error := contains chunk (lit "error") in
      if (has_error : bool) then
        let? error := getitem chunk (lit "error") in
        let? msg :=
          str_add (lit "Error receiving response from ollama server: ")
                  error in
        inl (Exception_ msg)
      else
        let? response := getitem chunk (lit "response") in
        inr (Some response)
  end.

(** [chat_with_ollama] has no decorator. *)
Definition chat_with_ollama (prompt : str) (state : State.t) : gen :=
  Suspended (fun w =>
    match requests_post (OllamaGenerate (State.model state) prompt) w with
    | (inl e, w1) => Raised e w1
    | (inr (lines, cut), w1) =>
        for_each (fun line w' => (ollama_line line, w')) lines cut w1
    end).

(** [chunk.choices[0].delta.content] *)
Definition chunk_content (chunk : Chunk.t) : exn + option str :=
  match Chunk.choices chunk with
  | [] => inl IndexError
  | Chunk.Absent :: _ => inl AttributeError
  | Chunk.IsNone :: _ => inr None
  | Chunk.Text s :: _ => inr (Some s)
  end.

(** The body of the loop of [chat_with_openai] for one chunk, with its
    two handlers; what [print] writes of the chunk itself is left out. *)
Definition openai_chunk (chunk : Chunk.t) : call (option value) :=
  match chunk_content chunk with
  | inr (Some chunk_content) =>
      if truthy_str chunk_content then ret (Some (VStr chunk_content))
      else ret None
  | inr None => ret None
  | inl (KeyError _) => ret None
  | inl error =>
      if is_Exception error then
        (print (VStr (lit "Failed to process chunk")) ;; ret None)%run
      else raise error
  end.

Definition chat_with_openai_def (messages : list Message.t)
    (state : State.t) : gen :=
  Suspended (fun w =>
    if negb (dict_mem (lit "OPENAI_API_KEY") (environ w)) then
      let w1 := snd (print_red (lit "Please set env var OPENAI_API_KEY") w) in
      Raised (SystemExit 1) w1
    else
      let model := State.model state in
      match openai_create (OpenAICompletion model messages) w with
      | (inl e, w1) => Raised e w1
      | (inr (response, cut), w1) => for_each openai_chunk response cut w1
      end).

Definition chat_with_openai (messages : list Message.t)
    (state : State.t) : call gen :=
  retry 3 1000 (generator_call (chat_with_openai_def messages state)).

(** ** Dispatch *)

(** [config.get("backend", "openai")] *)
Definition backend_of (config : list (str * value)) : value :=
  match dict_get config (lit "backend") with
  | Some v => v
  | None => VStr (lit "openai")
  end.

Definition chat (messages : list Message.t) (state : State.t) : call gen :=
  (config <- (fun w => (get_model_config (State.model state), w)) ;;
   let backend := backend_of config in
   if eq_str backend (lit "ollama") then
     let prompt := messages_to_prompt messages in
     generator_call (chat_with_ollama prompt state)
   else if eq_str backend (lit "anthropic") then
     chat_with_anthropic messages state
   else
     chat_with_openai messages state)%run.

End Adapters.

(** ** The driving loop ([main]) *)

(** The state of the running program: its surroundings and the database
    session, which [main] opens and hands to [add_entry] and
    [load_conversation_history] only. *)
Record process := mkProcess { outside : world; db_session : Db.t }.

Definition session (A : Type) : Type := run process A.

Definition in_world {A : Type} (c : call A) : session A :=
  fun p =>
    let '(r, w) := c (outside p) in (r, mkProcess w (db_session p)).

(** [add_entry(db_session, role, content, session_id, model=...)] on the
    session of the process. *)
Definition store (role content : str) (session_id : option Z)
    (model : option str) : session unit :=
  fun p =>
    (inr tt,
     mkProcess (outside p)
               (add_entry (db_session p) role content session_id model)).

Definition history (STATE : State.t) : session (list Message.t) :=
  fun p => (inr (load_conversation_history (db_session p) STATE), p).

Definition BEL : str := [7%N].

(** The loop [for chunk in ...: print(chunk, end=""); ai_response += chunk].
    Beside [ai_response] the result lists the fragments the loop was
    handed, in order: the source does not keep them, the properties below
    speak of them. *)
Fixpoint stream_to_terminal (g : gen) (ai_response : str)
    (received : list value) (w : world) {struct g}
  : (exn + str * list value) * world :=
  match g with
  | Suspended resume =>
      match resume w with
      | Yielded chunk w1 rest =>
          let w2 := emit (Printed chunk) w1 in
          match str_add ai_response chunk with
          | inl e => (inl e, w2)
          | inr ai_response' =>
              stream_to_terminal rest ai_response' (received ++ [chunk]) w2
          end
      | Returned w1 => (inr (ai_response, received), w1)
      | Raised e w1 => (inl e, w1)
      end
  end.

Definition is_empty {A : Type} (l : list A) : bool :=
  match l with [] => true | _ :: _ => false end.

Section Main.
Context {lib : Library}.

(** File mode, lines 173 to 198; [question] is what the file holds. The
    result is [None] after the early [return], and otherwise the
    fragments received. *)
Definition file_turn (STATE : State.t) (question : str)
  : session (option (list value)) :=
  (if State.max_tokens STATE <? count_tokens question then
     in_world
       (print (VStr (lit "Your message is too long. Please try again."))) ;;
     ret None
   else
     store (lit "user") (strip question) (State.session_id STATE) None ;;
     conversation_history <- history STATE ;;
     if is_empty conversation_history then
       raise (ValueError (lit "Conversation history is empty"))
     else
       in_world (print (VStr [])) ;;
       in_world (print_yellow ANSWER) ;;
       stream <- in_world (chat conversation_history STATE) ;;
       r <- in_world (stream_to_terminal stream [] []) ;;
       let '(ai_response, received) := r in
       store (lit "assistant") ai_response (State.session_id STATE) None ;;
       ret (Some received))%run.


(** One-off mode, lines 205 to 227, the branch of a question given on the
    command line: [question] is [args.question], which is not empty
    there. *)
Definition one_off_turn (STATE : State.t) (question : str)
  : session (list value) :=
  (if State.max_tokens STATE <? count_tokens question then
     in_world
       (print (VStr (lit "Your message is too long. Please try again."))) ;;
     exit 1
   else
     store (lit "user") question (State.session_id STATE) None ;;
     conversation_history <- history STATE ;;
     if is_empty conversation_history then
       raise (ValueError (lit "Conversation history is empty"))
     else
       in_world (print (VStr [])) ;;
       in_world (print_yellow ANSWER) ;;
       stream <- in_world (chat conversation_history STATE) ;;
       r <- in_world (stream_to_terminal stream [] []) ;;
       let '(ai_response, received) := r in
       store (lit "assistant") ai_response (State.session_id STATE) None ;;
       ret received)%run.


(** What persists of the response in the interactive loop, lines 260 to
    262. *)
Definition without_assistant_prefix (ai_response : str) : str :=
  if startswith (lit "assistant:") ai_response then
    strip (skipn 10 ai_response)
  else ai_response.

(** One round of the [while True] loop, lines 239 to 270; [typed] is what
    [get_prompt(STATE)] returns. *)
Definition interactive_turn (STATE : State.t) (typed : str)
  : session (list value) :=
  (let user_message := strip typed in
   store (lit "user") user_message (State.session_id STATE) None ;;
   conversation_history <- history STATE ;;
   if is_empty conversation_history then
     raise (ValueError (lit "Conversation history is empty"))
   else
     in_world (print (VStr [])) ;;
     in_world (print_yellow ANSWER) ;;
     stream <- in_world (chat conversation_history STATE) ;;
     r <- in_world (stream_to_terminal stream [] []) ;;
     let '(ai_response, received) := r in
     in_world (print (VStr BEL)) ;;
     let ai_response := without_assistant_prefix ai_response in
     store (lit "assistant") ai_response (State.session_id STATE)
           (Some (State.model STATE)) ;;
     in_world (print (VStr [])) ;;
     ret received)%run.

End Main.

(** A library for examples: lines are ASCII, no line parses as JSON, and
    every model is configured with the given back-end kind. *)
Definition example_library (backend : str) : Library := {|
  decode_utf8 := fun line => inr line;
  json_loads := fun _ => inl JSONDecodeError;
  get_model_config := fun _ =>
    inr [ (lit "backend", VStr backend); (lit "max_tokens", VInt 4096) ];
  ANSWER := lit "Answer: "
|}.

(** ** Definitions for the statements *)

Definition example_entry (role content : string) : ConversationEntry.t :=
  ConversationEntry.mk (lit role) (lit content) (Some 1) None 0.

(** The estimate as the specification words it. *)
Definition estimate_by_bytes (s : str) : Z := ceil_div (byteLength s) 4.

(** The requests sent and the waits, as the log has them. *)
Definition attempts (l : list event) : nat :=
  List.length
    (filter (fun e => match e with Sent _ => true | _ => false end) l).

Definition waits (l : list event) : list Z :=
  flat_map (fun e => match e with Slept ms => [ms] | _ => [] end) l.

(** Two worlds with as many requests sent and the same waits. *)
Definition same_traffic (w w1 : world) : Prop :=
  attempts (log w1) = attempts (log w) /\ waits (log w1) = waits (log w).

(** Both credentials set; either transport fails twice, then answers. *)
Definition flaky_world (answer : list Chunk.t) : world :=
  mkWorld
    [ (lit "ANTHROPIC_API_KEY", lit "sk-ant");
      (lit "OPENAI_API_KEY", lit "sk") ]
    [ Refused ConnectionError; Refused ConnectionError; Opened [] None ]
    [ Refused ConnectionError; Refused ConnectionError; Opened answer None ]
    [].

(** How exhausting a generator ended. *)
Definition outcome (r : list value * option exn * world) : option exn :=
  snd (fst r).

Definition fragments (r : list value * option exn * world) : list value :=
  fst (fst r).

(** A failure handed to the caller as an error, and no request to end the
    process. *)
Definition surfaces_as_error (out : option exn) : Prop :=
  exists e, out = Some e /\ process_exit e = false.

(** The back-end kinds that have an adapter. *)
Definition supported_kind (kind : value) : bool :=
  eq_str kind (lit "openai") || eq_str kind (lit "anthropic")
  || eq_str kind (lit "ollama").

(** Modelled from the spec: [get_model_config] of the configuration
    module, which is not under src/. By section 4.1 the lookup of a model
    name gives the configuration of the model and fails with ConfigError
    if the name is unknown or its back-end kind is unsupported; by section
    6 the configuration input is a mapping from model names to
    configurations, here [registry]. A configuration that names no kind is
    handed out as it is. *)
Definition lookup (registry : list (str * list (str * value)))
    (modelName : str) : exn + list (str * value) :=
  match dict_get registry modelName with
  | None => inl (ConfigError modelName)
  | Some config =>
      match dict_get config (lit "backend") with
      | Some kind =>
          if supported_kind kind then inr config
          else inl (ConfigError modelName)
      | None => inr config
      end
  end.

(** A library whose configuration module is that lookup. *)
Definition with_registry (lib : Library)
    (registry : list (str * list (str * value))) : Library := {|
  decode_utf8 := @decode_utf8 lib;
  json_loads := @json_loads lib;
  get_model_config := lookup registry;
  ANSWER := @ANSWER lib
|}.

(** Every value the generator yields, in whatever worlds it is resumed,
    satisfies [P]. *)
Fixpoint always_yields (P : value -> Prop) (g : gen) : Prop :=
  match g with
  | Suspended resume =>
      forall w,
        match resume w with
        | Yielded v _ rest => P v /\ always_yields P rest
        | Returned _ | Raised _ _ => True
        end
  end.

Definition nonempty_string (v : value) : Prop :=
  exists s, v = VStr s /\ s <> [].

Scheme gen_induction := Induction for gen Sort Prop
  with resumed_induction := Induction for resumed Sort Prop.

(** The row [add_entry] appends for a state. *)
Definition stored (db : Db.t) (STATE : State.t) (role content : str)
    (model : option str) : ConversationEntry.t :=
  ConversationEntry.mk role content (State.session_id STATE) model
                       (Db.utcnow db).

(** What the loop of [main] does to the world with a fragment, between two
    resumptions of the stream: [print(chunk, end="")]. *)
Definition shown (chunk : value) (w : world) : world :=
  emit (Printed chunk) w.

(** Exhausting a generator whose consumer does [between] to the world with
    each fragment before it resumes the generator: the fragments the
    generator yields in that run, how it ended, and the world then. *)
Fixpoint drain_with (between : value -> world -> world) (g : gen)
    (w : world) {struct g} : list value * option exn * world :=
  match g with
  | Suspended resume =>
      match resume w with
      | Yielded v w1 rest =>
          let '(vs, out, w2) := drain_with between rest (between v w1) in
          (v :: vs, out, w2)
      | Returned w1 => ([], None, w1)
      | Raised e w1 => ([], Some e, w1)
      end
  end.

(** The fragments of a turn: [chat], called with the history loaded once
    the user's message is stored and in the world where the empty line
    and the heading are printed, hands out a stream; run to its end under
    the loop of [main], this stream yields the strings [fs], in this
    order and nothing else, and returns. *)
Definition turn_fragments {lib : Library} (STATE : State.t) (p : process)
    (question : str) (fs : list str) : Prop :=
  let stored_question :=
    add_entry (db_session p) (lit "user") question
              (State.session_id STATE) None in
  let asking :=
    emit (Printed (VStr ANSWER)) (emit (Printed (VStr [])) (outside p)) in
  exists stream w1,
    chat (load_conversation_history stored_question STATE) STATE asking
    = (inr stream, w1)
    /\ fst (drain_with shown stream w1) = (map VStr fs, None).

(** The content of the last row of the table. *)
Definition last_content (db : Db.t) : option str :=
  match rev (Db.rows db) with
  | [] => None
  | e :: _ => Some (ConversationEntry.content e)
  end.

(** The text of the fragments, one after the other. *)
Definition text_of (received : list value) : str :=
  flat_map (fun v => match v with VStr s => s | _ => [] end) received.

(** The OpenAI client answers with two chunks, [assistant:] and [ hi]. *)
Definition prefixed_answer : world :=
  mkWorld [ (lit "OPENAI_API_KEY", lit "sk") ] []
          [ Opened [ Chunk.mk [Chunk.Text (lit "assistant:")];
                     Chunk.mk [Chunk.Text (lit " hi")] ] None ]
          [].

(** ** Definitions for the further properties *)

Definition option_list {A : Type} (o : option A) : list A :=
  match o with Some a => [a] | None => [] end.

(** The values that are there, in order. *)
Definition somes {A : Type} (l : list (option A)) : list A :=
  flat_map option_list l.

(** What a loop over a response gives, from what its body does for each
    item: the values up to the first exception, with that exception or
    the way the response ended. *)
Fixpoint collect (results : list (exn + option value)) (cut : option exn)
  : list value * option exn :=
  match results with
  | [] => ([], cut)
  | inl e :: _ => ([], Some e)
  | inr (Some v) :: later =>
      let '(vs, out) := collect later cut in (v :: vs, out)
  | inr None :: later => collect later cut
  end.

(** The world with further events in its log. *)
Definition logged (events : list event) (w : world) : world :=
  mkWorld (environ w) (http w) (openai_api w) (log w ++ events).

(** A line of an Anthropic response that carries text: a [data: ] line
    whose payload has the type [content_block_delta] and a text in its
    delta. *)
Definition delta_frame {lib : Library} (line : bytes) (text : value) : Prop :=
  exists s payload delta,
    decode_utf8 line = inr s
    /\ startswith (lit "data: ") s = true
    /\ json_loads (strip (skipn 6 s)) = inr payload
    /\ getitem payload (lit "type") = inr (VStr (lit "content_block_delta"))
    /\ getitem payload (lit "delta") = inr delta
    /\ getitem delta (lit "text") = inr text.

(** A line that is no [data: ] line, or whose payload has a type that is
    neither [content_block_delta] nor [error]. *)
Definition other_line {lib : Library} (line : bytes) : Prop :=
  exists s,
    decode_utf8 line = inr s
    /\ (startswith (lit "data: ") s = false
        \/ exists payload type,
             startswith (lit "data: ") s = true
             /\ json_loads (strip (skipn 6 s)) = inr payload
             /\ getitem payload (lit "type") = inr type
             /\ eq_str type (lit "content_block_delta") = false
             /\ eq_str type (lit "error") = false).

(** A [data: ] line whose payload has the type [error] and a field
    [error]. *)
Definition error_frame {lib : Library} (line : bytes) (error : value) : Prop :=
  exists s payload,
    decode_utf8 line = inr s
    /\ startswith (lit "data: ") s = true
    /\ json_loads (strip (skipn 6 s)) = inr payload
    /\ getitem payload (lit "type") = inr (VStr (lit "error"))
    /\ getitem payload (lit "error") = inr error.

(** A [data: ] line whose payload is an object without the key [type]. *)
Definition untyped_frame {lib : Library} (line : bytes) : Prop :=
  exists s fields,
    decode_utf8 line = inr s
    /\ startswith (lit "data: ") s = true
    /\ json_loads (strip (skipn 6 s)) = inr (VDict fields)
    /\ dict_get fields (lit "type") = None.

(** What the loop of the Anthropic adapter reads from a line. *)
Definition anthropic_reads {lib : Library} (line : bytes) (r : option value)
  : Prop :=
  match r with
  | Some text => delta_frame line text
  | None => other_line line
  end.

(** What the loop of the Ollama adapter reads from a line: nothing from an
    empty line, and the field [response] of an object without the key
    [error]. *)
Definition ollama_reads {lib : Library} (line : bytes) (r : option value)
  : Prop :=
  match r with
  | None => line = []
  | Some response =>
      exists s chunk,
        line <> []
        /\ decode_utf8 line = inr s
        /\ json_loads s = inr chunk
        /\ contains chunk (lit "error") = inr false
        /\ getitem chunk (lit "response") = inr response
  end.

Definition ollama_error {lib : Library} (line : bytes) (error : value) : Prop :=
  exists s chunk,
    line <> []
    /\ decode_utf8 line = inr s
    /\ json_loads s = inr chunk
    /\ contains chunk (lit "error") = inr true
    /\ getitem chunk (lit "error") = inr error.

(** The exception of an error line: the message after the prefix, or the
    [TypeError] of adding what is no string to the prefix. *)
Definition error_raised (prefix : str) (error : value) : exn :=
  match str_add prefix error with
  | inr msg => Exception_ msg
  | inl e => e
  end.

(** The fragment of a chunk of the OpenAI client, and the notice printed
    for a chunk without choices or without the attribute. *)
Definition chunk_text (chunk : Chunk.t) : option value :=
  match Chunk.choices chunk with
  | Chunk.Text (c :: s) :: _ => Some (VStr (c :: s))
  | _ => None
  end.

Definition chunk_notice (chunk : Chunk.t) : list event :=
  match Chunk.choices chunk with
  | [] | Chunk.Absent :: _ =>
      [Printed (VStr (lit "Failed to process chunk"))]
  | _ => []
  end.

(** A library for examples that reads lines as ASCII and parses by table:
    a payload is the value the table has for its text. *)
Definition table_library (table : list (str * value)) : Library := {|
  decode_utf8 := fun line => inr line;
  json_loads := fun s =>
    match dict_get table s with
    | Some v => inr v
    | None => inl JSONDecodeError
    end;
  get_model_config := fun _ => inr [ (lit "backend", VStr (lit "ollama")) ];
  ANSWER := lit "Answer: "
|}.

(** Payloads of an Anthropic response for examples: a text frame, a
    frame of another type, an error frame, and an object without type. *)
Definition anthropic_table : list (str * value) :=
  [ (lit "hi",
     VDict [ (lit "type", VStr (lit "content_block_delta"));
             (lit "delta", VDict [ (lit "text", VStr (lit "Hi")) ]) ]);
    (lit "ping", VDict [ (lit "type", VStr (lit "ping")) ]);
    (lit "boom",
     VDict [ (lit "type", VStr (lit "error"));
             (lit "error", VStr (lit "rate limited")) ]);
    (lit "odd", VDict [ (lit "kind", VStr (lit "x")) ]) ].

(** Payloads of an Ollama response for examples. *)
Definition ollama_table : list (str * value) :=
  [ (lit "hi", VDict [ (lit "response", VStr (lit "Hi")) ]);
    (lit "boom", VDict [ (lit "error", VStr (lit "no such model")) ]) ].

(** A world with both credentials where the next request is answered with
    the given lines, and the next call of the OpenAI client with the given
    chunks. *)
Definition answering (lines : list bytes) (chunks : list Chunk.t) : world :=
  mkWorld
    [ (lit "ANTHROPIC_API_KEY", lit "sk-ant");
      (lit "OPENAI_API_KEY", lit "sk") ]
    [ Opened lines None ] [ Opened chunks None ] [].

(** * Properties *)

(** ** Strings and the token estimate *)

Lemma len_nonneg (s : str) : 0 <= len s.
Proof. unfold len. lia. Qed.

Lemma len_app (a b : str) : len (a ++ b) = len a + len b.
Proof. unfold len. rewrite length_app. lia. Qed.

Lemma str_eqb_eq (a b : str) : str_eqb a b = true <-> a = b.
Proof.
  revert b. induction a as [|x a IH]; intros [|y b]; simpl;
    try (split; [discriminate | discriminate]); try tauto.
  rewrite andb_true_iff, N.eqb_eq, IH. split.
  - intros [-> ->]. reflexivity.
  - intros E. injection E as -> ->. tauto.
Qed.

Lemma count_tokens_nonneg (s : str) : 0 <= count_tokens s.
Proof. unfold count_tokens. apply Z.div_pos; [apply len_nonneg | lia]. Qed.

Lemma entry_text_len (role content : str) :
  len (entry_text role content) = len role + len content + 3.
Proof.
  unfold entry_text. rewrite !len_app.
  change (len (lit ": ")) with 2. change (len NL) with 1. lia.
Qed.

Lemma byteLength_ascii (s : str) :
  Forall (fun c => (c < 128)%N) s -> byteLength s = len s.
Proof.
  induction 1 as [|c s Hc _ IH]; [reflexivity|].
  change (byteLength (c :: s)) with (utf8_width c + byteLength s).
  change (c :: s) with ([c] ++ s). rewrite len_app, IH.
  unfold utf8_width. apply N.ltb_lt in Hc. rewrite Hc. reflexivity.
Qed.

(** The estimate counts characters: four two-byte characters are one
    token, where eight bytes would be two. *)
Example count_tokens_of_characters :
  let s := [233; 233; 233; 233]%N in
  count_tokens s = 1 /\ byteLength s / 4 = 2.
Proof. split; reflexivity. Qed.

(** ** The windower *)

Lemma message_tokens_nonneg (m : Message.t) : 0 <= message_tokens m.
Proof. apply count_tokens_nonneg. Qed.

Lemma total_tokens_nonneg (ms : list Message.t) : 0 <= total_tokens ms.
Proof.
  induction ms as [|m ms IH]; simpl; [lia|].
  pose proof (message_tokens_nonneg m). lia.
Qed.

Lemma total_tokens_app (a b : list Message.t) :
  total_tokens (a ++ b) = total_tokens a + total_tokens b.
Proof. induction a as [|m a IH]; simpl; lia. Qed.

Lemma total_tokens_rev (ms : list Message.t) :
  total_tokens (rev ms) = total_tokens ms.
Proof.
  induction ms as [|m ms IH]; simpl; [reflexivity|].
  rewrite total_tokens_app, IH. simpl. lia.
Qed.

Lemma as_message_as_entry (ms : list Message.t) :
  map as_message (map as_entry ms) = ms.
Proof.
  induction ms as [|[r c] ms IH]; simpl; [reflexivity|].
  rewrite IH. reflexivity.
Qed.

Section Scan.
Variable max_tokens : Z.

(** The list built so far is only extended. *)
Lemma scan_acc (l : list ConversationEntry.t) :
  forall t acc, scan max_tokens l t acc = acc ++ scan max_tokens l t [].
Proof.
  induction l as [|e l IH]; intros t acc; simpl.
  - now rewrite app_nil_r.
  - destruct (_ <=? _); [|now rewrite app_nil_r].
    rewrite IH. rewrite (IH _ [_]). now rewrite <- app_assoc.
Qed.

Lemma scan_cons (e : ConversationEntry.t) (l : list ConversationEntry.t)
    (t : Z) :
  scan max_tokens (e :: l) t [] =
  if t + message_tokens (as_message e) <=? max_tokens
  then as_message e :: scan max_tokens l (t + message_tokens (as_message e)) []
  else [].
Proof.
  simpl. unfold message_tokens, as_message. simpl.
  destruct (_ <=? _); [|reflexivity]. now rewrite scan_acc.
Qed.

(** The loop keeps a prefix of what it is given. *)
Lemma scan_prefix (l : list ConversationEntry.t) :
  forall t, exists dropped,
    map as_message l = scan max_tokens l t [] ++ dropped.
Proof.
  induction l as [|e l IH]; intros t.
  - exists []. reflexivity.
  - rewrite scan_cons. destruct (_ <=? _).
    + destruct (IH (t + message_tokens (as_message e))) as [d Hd].
      exists d. simpl. now rewrite Hd.
    + now exists (map as_message (e :: l)).
Qed.

(** The running total never passes the budget. *)
Lemma scan_total (l : list ConversationEntry.t) :
  forall t, t <= max_tokens ->
    t + total_tokens (scan max_tokens l t []) <= max_tokens.
Proof.
  induction l as [|e l IH]; intros t Ht.
  - simpl. lia.
  - rewrite scan_cons. destruct (_ <=? _) eqn:E; simpl; [|lia].
    apply Z.leb_le in E. specialize (IH _ E). lia.
Qed.

Lemma scan_total_kept (l : list ConversationEntry.t) (t : Z) :
  scan max_tokens l t [] <> [] ->
  t + total_tokens (scan max_tokens l t []) <= max_tokens.
Proof.
  destruct l as [|e l]; [now intros []|].
  rewrite scan_cons. destruct (_ <=? _) eqn:E; [|now intros []].
  intros _. apply Z.leb_le in E. simpl.
  pose proof (scan_total l _ E). lia.
Qed.

Lemma scan_nil_iff (l : list ConversationEntry.t) (t : Z) :
  scan max_tokens l t [] = [] <->
  l = [] \/
  exists e older,
    l = e :: older /\ max_tokens < t + message_tokens (as_message e).
Proof.
  destruct l as [|e l].
  - simpl. split; [now left | reflexivity].
  - rewrite scan_cons. destruct (_ <=? _) eqn:E.
    + apply Z.leb_le in E. split; [discriminate|].
      intros [D | (e' & o & D & Hlt)]; [discriminate|].
      injection D as <- <-. lia.
    + apply Z.leb_gt in E. split; [|reflexivity].
      intros _. right. now exists e, l.
Qed.

(** What fits as a whole is kept as a whole. *)
Lemma scan_all (l : list ConversationEntry.t) :
  forall t, t + total_tokens (map as_message l) <= max_tokens ->
    scan max_tokens l t [] = map as_message l.
Proof.
  induction l as [|e l IH]; intros t Ht; [reflexivity|].
  rewrite scan_cons. simpl in Ht.
  pose proof (total_tokens_nonneg (map as_message l)).
  destruct (_ <=? _) eqn:E.
  - simpl. f_equal. apply IH. lia.
  - apply Z.leb_gt in E. lia.
Qed.
End Scan.

(** A history that fits the budget is its own window. *)
Lemma window_of_fitting (E : list ConversationEntry.t) (B : Z) :
  E = [] \/ total_tokens (map as_message E) <= B ->
  window E B = map as_message E.
Proof.
  intros [-> | Hfit]; [reflexivity|].
  unfold window. rewrite scan_all.
  - now rewrite map_rev, rev_involutive.
  - now rewrite map_rev, total_tokens_rev.
Qed.

Lemma window_total_kept (H : list ConversationEntry.t) (B : Z) :
  window H B <> [] -> total_tokens (window H B) <= B.
Proof.
  unfold window. intros Hne. rewrite total_tokens_rev.
  apply (scan_total_kept B (rev H) 0).
  intros E. apply Hne. now rewrite E.
Qed.

Lemma rev_eq_cons {A : Type} (l : list A) (x : A) (t : list A) :
  rev l = x :: t <-> l = rev t ++ [x].
Proof.
  split; intros E.
  - rewrite <- (rev_involutive l), E. reflexivity.
  - rewrite E, rev_app_distr, rev_involutive. reflexivity.
Qed.

Lemma load_conversation_history_window (db_session : Db.t) (state : State.t) :
  load_conversation_history db_session state =
  window (get_entries_past_week db_session (State.session_id state))
         (State.max_tokens state).
Proof. reflexivity. Qed.

Lemma message_tokens_pos (m : Message.t) :
  Message.role m <> [] -> 1 <= message_tokens m.
Proof.
  intros Hr. unfold message_tokens, entry_token_count, count_tokens.
  rewrite entry_text_len. pose proof (len_nonneg (Message.content m)).
  assert (1 <= len (Message.role m)).
  { destruct (Message.role m); [congruence|]. unfold len. simpl. lia. }
  apply Z.div_le_lower_bound; lia.
Qed.

(** C1. For every history [H] and budget [B], the window is a contiguous
    suffix of [H], in the order of [H] (oldest first); for a budget that
    is not negative, and whenever anything is kept, its estimated token
    costs sum to at most [B]; it is empty exactly when nothing fits, that is when [H] is empty or its most
    recent entry alone costs more than [B]; and with [B = 0] it is empty
    for every history whose entries name a role. *)
Theorem window_suffix_within_budget (H : list ConversationEntry.t) (B : Z) :
  (exists older, map as_message H = older ++ window H B) /\
  (0 <= B \/ window H B <> [] -> total_tokens (window H B) <= B) /\
  (window H B = [] <->
   H = [] \/
   exists older latest,
     H = older ++ [latest] /\ B < message_tokens (as_message latest)) /\
  (B = 0 ->
   (forall e, In e H -> ConversationEntry.role e <> []) ->
   window H B = []).
Proof.
  assert (Hnil : window H B = [] <->
            H = [] \/
            exists older latest,
              H = older ++ [latest]
              /\ B < message_tokens (as_message latest)).
  { unfold window. split.
    - intros E. apply (f_equal (@rev _)) in E.
      rewrite rev_involutive in E. simpl in E.
      apply scan_nil_iff in E. destruct E as [E | (e & t & E & Hlt)].
      + left. rewrite <- (rev_involutive H), E. reflexivity.
      + right. apply rev_eq_cons in E. exists (rev t), e. split; [exact E|lia].
    - intros Hc. assert (scan B (rev H) 0 [] = []) as ->; [|reflexivity].
      apply scan_nil_iff. destruct Hc as [-> | (o & e & -> & Hlt)].
      + now left.
      + right. exists e, (rev o). rewrite rev_app_distr.
        split; [reflexivity|lia]. }
  split; [|split; [|split; [exact Hnil|]]].
  - destruct (scan_prefix B (rev H) 0) as [d Hd].
    exists (rev d). unfold window. rewrite <- rev_app_distr, <- Hd.
    now rewrite map_rev, rev_involutive.
  - intros [HB | Hkept]; [|now apply window_total_kept].
    unfold window. rewrite total_tokens_rev.
    pose proof (scan_total B (rev H) 0 HB). lia.
  - intros -> Hroles. apply Hnil.
    destruct (rev H) as [|e t] eqn:E.
    + left. rewrite <- (rev_involutive H), E. reflexivity.
    + right. apply rev_eq_cons in E. exists (rev t), e. split; [exact E|].
      assert (1 <= message_tokens (as_message e)); [|lia].
      apply message_tokens_pos. simpl. apply Hroles.
      rewrite E. apply in_or_app. right. now left.
Qed.

Lemma window_suffix_within_budget_witness :
  total_tokens
    (window [example_entry "user" "hello"; example_entry "assistant" "hi"] 5)
  <= 5
  /\ window [example_entry "user" "hello"] 0 = [].
Proof.
  split.
  - apply (window_suffix_within_budget
             [example_entry "user" "hello"; example_entry "assistant" "hi"] 5).
    left. lia.
  - apply (window_suffix_within_budget [example_entry "user" "hello"] 0).
    + reflexivity.
    + intros e [<- | []]. discriminate.
Defined.

(** C8. Windowing a window again, with the same budget, changes nothing.
    The messages of the window are read back as entries by [as_entry]. *)
Theorem window_idempotent (H : list ConversationEntry.t) (B : Z) :
  window (map as_entry (window H B)) B = window H B.
Proof.
  rewrite window_of_fitting; [apply as_message_as_entry|].
  rewrite as_message_as_entry.
  destruct (window H B) as [|m ms] eqn:E; [now left|].
  right. rewrite <- E. apply window_total_kept. now rewrite E.
Qed.

(** The same for any entries that carry the messages of the window. *)
Lemma window_idempotent_any (H E : list ConversationEntry.t) (B : Z) :
  map as_message E = window H B -> window E B = window H B.
Proof.
  intros HE. rewrite window_of_fitting; [exact HE|].
  rewrite HE. destruct (window H B) as [|m ms] eqn:W.
  - left. now destruct E.
  - right. rewrite <- W. apply window_total_kept. now rewrite W.
Qed.

(** The claim of C2 fails on the code: three characters are no token for
    [count_tokens], and one token rounded up. *)
Lemma count_tokens_rounds_down :
  count_tokens (lit "abc") <> estimate_by_bytes (lit "abc").
Proof. vm_compute. discriminate. Qed.

(** C2, amended. The estimate of a string is its length in characters
    divided by four and rounded down; it is monotonic in the length; and
    the cost the windower gives an entry, the estimate of
    [role: content] and a line end, is the sum of the lengths of role and
    content divided by four and rounded up. *)
Theorem count_tokens_floor (s t role content : str) :
  (4 * count_tokens s <= len s < 4 * count_tokens s + 4) /\
  (len s <= len t -> count_tokens s <= count_tokens t) /\
  entry_token_count role content = ceil_div (len role + len content) 4.
Proof.
  unfold entry_token_count, count_tokens, ceil_div.
  rewrite entry_text_len. split; [|split].
  - pose proof (Z.div_mod (len s) 4). pose proof (Z.mod_pos_bound (len s) 4).
    lia.
  - intros Hle. apply Z.div_le_mono; lia.
  - f_equal. lia.
Qed.

Lemma count_tokens_floor_witness :
  count_tokens (lit "abc") <= count_tokens (lit "abcde").
Proof.
  apply (count_tokens_floor (lit "abc") (lit "abcde") [] []).
  vm_compute. discriminate.
Defined.

(** ** The retry wrapper *)

(** A call that returns is not repeated, whatever the number of attempts
    allowed. *)
Lemma retry_of_return {A : Type} (n : nat) (ms : Z) (a : A) (w : world) :
  retry n ms (ret a) w = (inr a, w).
Proof. unfold retry. destruct (n - 1)%nat; reflexivity. Qed.

(** The decorated adapters hand out their generator at once: no request
    has left, nothing is awaited. *)
Lemma chat_with_anthropic_call {lib : Library} (messages : list Message.t)
    (state : State.t) (w : world) :
  chat_with_anthropic messages state w =
  (inr (chat_with_anthropic_def messages state), w).
Proof. apply retry_of_return. Qed.

Lemma chat_with_openai_call {lib : Library} (messages : list Message.t)
    (state : State.t) (w : world) :
  chat_with_openai messages state w =
  (inr (chat_with_openai_def messages state), w).
Proof. apply retry_of_return. Qed.

(** On a call that itself raises, the wrapper does what its parameters
    say: refused twice, a request is sent a third time after two waits of
    a second; refused three times, the third refusal is raised. *)
Example retry_of_plain_call :
  let r := OllamaGenerate (lit "m") (lit "p") in
  let w := mkWorld [] [Refused ConnectionError;
                       Refused (Exception_ (lit "reset"));
                       Opened [] None; Opened [] None] [] [] in
  retry 3 1000 (requests_post r) w =
  (inr ([], None),
   mkWorld [] [Opened [] None] []
           [Sent r; Slept 1000; Sent r; Slept 1000; Sent r]).
Proof. reflexivity. Qed.

Example retry_exhausted :
  let r := OllamaGenerate (lit "m") (lit "p") in
  let w := mkWorld [] [Refused ConnectionError; Refused ConnectionError;
                       Refused (Exception_ (lit "reset")); Opened [] None]
                   [] [] in
  retry 3 1000 (requests_post r) w =
  (inl (Exception_ (lit "reset")),
   mkWorld [] [Opened [] None] []
           [Sent r; Slept 1000; Sent r; Slept 1000; Sent r]).
Proof. reflexivity. Qed.

(** C3, on the code. With the transport failing twice and then ready to
    answer, both decorated adapters return their generator without a
    request; exhausting it sends one request, the first failure is raised
    to the consumer, and the two other replies are never asked for: one
    attempt, no wait, no stream. *)
Theorem retry_never_repeats_the_request :
  let lib := example_library (lit "anthropic") in
  let messages := [Message.mk (lit "user") (lit "hello")] in
  let hi := Chunk.mk [Chunk.Text (lit "Hi")] in
  let w := flaky_world [hi] in
  (let state := State.mk (lit "opus") 4096 (Some 1) in
   let g := chat_with_anthropic_def messages state in
   chat_with_anthropic messages state w = (inr g, w)
   /\ fst (drain g w) = ([], Some ConnectionError)
   /\ attempts (log (snd (drain g w))) = 1%nat
   /\ waits (log (snd (drain g w))) = []
   /\ http (snd (drain g w)) = [Refused ConnectionError; Opened [] None])
  /\
  (let state := State.mk (lit "gpt-4") 4096 (Some 1) in
   let g := chat_with_openai_def messages state in
   chat_with_openai messages state w = (inr g, w)
   /\ fst (drain g w) = ([], Some ConnectionError)
   /\ attempts (log (snd (drain g w))) = 1%nat
   /\ waits (log (snd (drain g w))) = []
   /\ openai_api (snd (drain g w))
      = [Refused ConnectionError; Opened [hi] None]).
Proof. repeat split. Qed.

(** Requests and waits in the log, event by event. *)
Lemma attempts_emit (e : event) (w : world) :
  attempts (log (emit e w))
  = (attempts (log w) + match e with Sent _ => 1 | _ => 0 end)%nat.
Proof.
  unfold attempts, emit. simpl. rewrite filter_app, length_app.
  destruct e; reflexivity.
Qed.

Lemma waits_emit (e : event) (w : world) :
  waits (log (emit e w))
  = waits (log w) ++ match e with Slept ms => [ms] | _ => [] end.
Proof.
  unfold waits, emit. simpl. rewrite flat_map_app. simpl.
  destruct e; simpl; now rewrite ?app_nil_r.
Qed.

Lemma same_traffic_trans {w w1 w2 : world} :
  same_traffic w w1 -> same_traffic w1 w2 -> same_traffic w w2.
Proof. intros [A1 W1] [A2 W2]. split; congruence. Qed.

Lemma drain_resumed (resume resume' : world -> resumed) (w w1 : world) :
  resume w = resume' w1 ->
  drain (Suspended resume) w = drain (Suspended resume') w1.
Proof. intros E. simpl. now rewrite E. Qed.

Lemma drain_for_each_cons {A : Type} (body : A -> call (option value))
    (x : A) (later : list A) (cut : option exn) (w : world) :
  drain (Suspended (for_each body (x :: later) cut)) w =
  match body x w with
  | (inl e, w1) => ([], Some e, w1)
  | (inr (Some v), w1) =>
      let '(vs, out, w2) := drain (Suspended (for_each body later cut)) w1 in
      (v :: vs, out, w2)
  | (inr None, w1) => drain (Suspended (for_each body later cut)) w1
  end.
Proof.
  cbn [drain for_each]. destruct (body x w) as [[e | [v|]] w1]; reflexivity.
Qed.

Lemma for_each_same_traffic {A : Type} (body : A -> call (option value)) :
  (forall x w, same_traffic w (snd (body x w))) ->
  forall items cut w,
    same_traffic w (snd (drain (Suspended (for_each body items cut)) w)).
Proof.
  intros Hbody items cut. induction items as [|x later IH]; intros w.
  - simpl. destruct cut; split; reflexivity.
  - rewrite drain_for_each_cons. specialize (Hbody x w).
    destruct (body x w) as [[e | [v|]] w1]; simpl in Hbody.
    + exact Hbody.
    + specialize (IH w1).
      destruct (drain _ w1) as [[vs out] w2]. simpl in *.
      exact (same_traffic_trans Hbody IH).
    + exact (same_traffic_trans Hbody (IH w1)).
Qed.

Lemma requests_post_traffic (r : request) (w : world) :
  attempts (log (snd (requests_post r w))) = S (attempts (log w))
  /\ waits (log (snd (requests_post r w))) = waits (log w).
Proof.
  pose proof (attempts_emit (Sent r) w) as Ha.
  pose proof (waits_emit (Sent r) w) as Hw. rewrite app_nil_r in Hw.
  unfold requests_post. simpl in *.
  destruct (http w) as [|[e | items cut] later]; simpl; split;
    solve [exact Hw | rewrite Ha; lia].
Qed.

(** Whatever the world, exhausting the generator of the Anthropic adapter
    sends one request at most and waits for nothing: the decorator adds no
    attempt and no pause, and [requests.post] is called once. *)
Theorem anthropic_sends_one_request {lib : Library}
    (messages : list Message.t) (state : State.t) (w : world) :
  let after := log (snd (drain (chat_with_anthropic_def messages state) w)) in
  (attempts after <= S (attempts (log w)))%nat
  /\ waits after = waits (log w).
Proof.
  cbv zeta. unfold chat_with_anthropic_def.
  destruct (actual_model_of (State.model state)) as [e | actual] eqn:Em;
    [simpl; split; [lia | reflexivity]|].
  destruct (dict_get (environ w) (lit "ANTHROPIC_API_KEY")) as [key|] eqn:Ek.
  - pose proof (requests_post_traffic
                  (AnthropicMessages key actual 4096 messages) w)
      as [Ha Hw].
    destruct (requests_post (AnthropicMessages key actual 4096 messages) w)
      as [[e | [lines cut]] w1] eqn:Ep.
    + simpl. rewrite Ek, Ep. simpl in *. split; [lia | exact Hw].
    + rewrite (drain_resumed _
                 (for_each (fun line w' => (anthropic_line line, w'))
                           lines cut) w w1)
        by (now rewrite Ek, Ep).
      destruct (for_each_same_traffic
                  (fun line w' => (anthropic_line line, w'))
                  (fun x w' => conj eq_refl eq_refl) lines cut w1)
        as [Ha' Hw'].
      simpl in Ha, Hw. rewrite Ha', Hw'. split; [lia | exact Hw].
  - simpl. rewrite Ek. simpl. unfold attempts, waits.
    rewrite filter_app, length_app, flat_map_app. simpl.
    rewrite app_nil_r. split; [lia | reflexivity].
Qed.

(** ** Alias resolution of the Anthropic adapter *)

Lemma dict_get_model_map (model : str) :
  dict_get ANTHROPIC_MODEL_MAP model = None
  \/ (exists actual, dict_get ANTHROPIC_MODEL_MAP model = Some actual
                     /\ truthy_str actual = true).
Proof.
  unfold ANTHROPIC_MODEL_MAP. cbn [dict_get].
  repeat (match goal with
          | |- context [if ?c then _ else _] => destruct c
          end; [right; eexists; split; reflexivity|]).
  now left.
Qed.

(** C9. The guard [if not actual_model] of [chat_with_anthropic] is never
    taken: a name that is no key of the map raises [KeyError] in the
    subscript before the guard, and the value of every key is a non-empty
    string, so that no model name makes lines 68 to 70 raise the
    [ValueError] of the guard. *)
Theorem anthropic_guard_unreachable (model : str) :
  (dict_get ANTHROPIC_MODEL_MAP model = None ->
   actual_model_of model = inl (KeyError model)) /\
  Forall (fun kv => truthy_str (snd kv) = true) ANTHROPIC_MODEL_MAP /\
  (forall msg, actual_model_of model <> inl (ValueError msg)) /\
  (forall actual, dict_get ANTHROPIC_MODEL_MAP model = Some actual ->
                  actual_model_of model = inr actual).
Proof.
  unfold actual_model_of. split; [|split; [|split]].
  - intros ->. reflexivity.
  - repeat constructor.
  - intros msg. destruct (dict_get_model_map model) as [-> | (a & -> & ->)];
      discriminate.
  - intros actual E. destruct (dict_get_model_map model) as [N | (a & S & T)].
    + congruence.
    + rewrite E in S |- *. injection S as <-. now rewrite T.
Qed.

Lemma anthropic_guard_unreachable_witness :
  actual_model_of (lit "gpt-4") = inl (KeyError (lit "gpt-4"))
  /\ actual_model_of (lit "haiku") = inr (lit "claude-3-haiku-20240307").
Proof.
  split.
  - apply (anthropic_guard_unreachable (lit "gpt-4")). reflexivity.
  - apply (anthropic_guard_unreachable (lit "haiku")). reflexivity.
Defined.

Lemma dict_get_model_map_other (model : str) :
  model <> lit "opus" -> model <> lit "sonnet" -> model <> lit "haiku" ->
  dict_get ANTHROPIC_MODEL_MAP model = None.
Proof.
  intros Ho Hs Hh. unfold ANTHROPIC_MODEL_MAP. cbn [dict_get].
  repeat (match goal with
          | |- context [if str_eqb ?a ?b then _ else _] =>
              destruct (str_eqb a b) eqn:E;
              [apply str_eqb_eq in E; congruence | clear E]
          end).
  reflexivity.
Qed.

(** C7. The aliases [opus], [sonnet] and [haiku] resolve to the three
    versioned identifiers of the map; for every other alias the Anthropic
    call fails with the error of the failed lookup, [KeyError] of the
    alias: the decorated call hands out the generator, and its first
    resumption raises, in any world, with no request sent and nothing
    printed. *)
Theorem anthropic_alias_resolution {lib : Library}
    (messages : list Message.t) (state : State.t) (w : world) :
  actual_model_of (lit "opus") = inr (lit "claude-3-opus-20240229") /\
  actual_model_of (lit "sonnet") = inr (lit "claude-3-sonnet-20240229") /\
  actual_model_of (lit "haiku") = inr (lit "claude-3-haiku-20240307") /\
  (State.model state <> lit "opus" ->
   State.model state <> lit "sonnet" ->
   State.model state <> lit "haiku" ->
   exists g,
     chat_with_anthropic messages state w = (inr g, w)
     /\ next g w = Raised (KeyError (State.model state)) w
     /\ drain g w = ([], Some (KeyError (State.model state)), w)).
Proof.
  repeat (split; [reflexivity|]).
  intros Ho Hs Hh. exists (chat_with_anthropic_def messages state).
  split; [apply chat_with_anthropic_call|].
  simpl. unfold actual_model_of.
  rewrite (dict_get_model_map_other _ Ho Hs Hh). now split.
Qed.

Lemma anthropic_alias_resolution_witness :
  let lib := example_library (lit "anthropic") in
  let state := State.mk (lit "gpt-4") 4096 None in
  let w := flaky_world [] in
  exists g,
    chat_with_anthropic [] state w = (inr g, w)
    /\ next g w = Raised (KeyError (lit "gpt-4")) w
    /\ drain g w = ([], Some (KeyError (lit "gpt-4")), w).
Proof.
  apply (@anthropic_alias_resolution (example_library (lit "anthropic")) []
           (State.mk (lit "gpt-4") 4096 None) (flaky_world []));
    vm_compute; discriminate.
Defined.

(** ** Generators *)

(** An induction over the resumptions of a generator. *)
Lemma gen_ind_rest (P : gen -> Prop) :
  (forall resume,
     (forall w v w1 rest, resume w = Yielded v w1 rest -> P rest) ->
     P (Suspended resume)) ->
  forall g, P g.
Proof.
  intros step.
  apply (gen_induction P
           (fun r => match r with Yielded _ _ rest => P rest | _ => True end));
    try (intros; exact I).
  - intros resume IH. apply step. intros w v w1 rest E.
    specialize (IH w). now rewrite E in IH.
  - intros v w rest IH. exact IH.
Qed.

Lemma always_yields_drain (P : value -> Prop) (g : gen) :
  always_yields P g -> forall w, Forall P (fragments (drain g w)).
Proof.
  induction g as [resume IH] using gen_ind_rest. intros Hy w.
  simpl in Hy. specialize (Hy w). simpl.
  destruct (resume w) as [v w1 rest | w1 | e w1] eqn:E;
    try (constructor; fail).
  destruct Hy as [Hv Hrest]. specialize (IH _ _ _ _ E Hrest w1).
  destruct (drain rest w1) as [[vs out] w2]. constructor; assumption.
Qed.

Lemma always_yields_for_each {A : Type} (P : value -> Prop)
    (body : A -> call (option value)) :
  (forall x w v w1, body x w = (inr (Some v), w1) -> P v) ->
  forall items cut, always_yields P (Suspended (for_each body items cut)).
Proof.
  intros Hbody items cut. induction items as [|x later IH]; intros w; simpl.
  - destruct cut; exact I.
  - destruct (body x w) as [[e | [v|]] w1] eqn:E; [exact I | |].
    + split; [eapply Hbody; eassumption | exact IH].
    + apply IH.
Qed.

(** ** The OpenAI adapter *)

(** C10. Every fragment the OpenAI adapter yields is a non-empty string,
    in whatever worlds its generator is resumed and so in every run to its
    end; a chunk whose content is absent, [None] or the empty string is
    passed over with no fragment. *)
Theorem openai_fragments_nonempty {lib : Library}
    (messages : list Message.t) (state : State.t) :
  always_yields nonempty_string (chat_with_openai_def messages state) /\
  (forall w,
     Forall nonempty_string
            (fragments (drain (chat_with_openai_def messages state) w))) /\
  (forall others w,
     fst (openai_chunk (Chunk.mk (Chunk.Absent :: others)) w) = inr None /\
     fst (openai_chunk (Chunk.mk (Chunk.IsNone :: others)) w) = inr None /\
     fst (openai_chunk (Chunk.mk (Chunk.Text [] :: others)) w) = inr None).
Proof.
  assert (Hbody : forall x w v w1,
            openai_chunk x w = (inr (Some v), w1) -> nonempty_string v).
  { intros [[|[| |s] others]] w v w1; unfold openai_chunk; simpl;
      try discriminate.
    destruct s as [|c s]; simpl; [discriminate|].
    unfold ret. intros E. injection E as <- _.
    exists (c :: s). split; [reflexivity | discriminate]. }
  assert (Hall : always_yields nonempty_string
                   (chat_with_openai_def messages state)).
  { intros w. simpl.
    destruct (negb _); [exact I|].
    destruct (openai_create _ w) as [[e | [response cut]] w1]; [exact I|].
    apply (always_yields_for_each nonempty_string openai_chunk Hbody). }
  split; [exact Hall | split].
  - intros w. now apply always_yields_drain.
  - intros others w. repeat split.
Qed.

(** ** Missing credentials *)

(** The claim of C4 fails on the code: without [OPENAI_API_KEY] the
    adapter ends with [exit(1)], a request to end the process. *)
Lemma missing_credential_ends_process :
  let lib := example_library (lit "openai") in
  let w := mkWorld [] [] [] [] in
  ~ surfaces_as_error
      (outcome (drain (chat_with_openai_def [] (State.mk (lit "gpt-4") 4096 None))
                      w)).
Proof.
  intros lib w (e & E & X). vm_compute in E. injection E as <-. discriminate.
Qed.

(** C4, amended. When the credential of its variant is not in the
    environment, the adapter, at the first resumption of its generator,
    prints which variable to set and calls [exit(1)]: it asks for the end
    of the process itself. Nothing else happens: no request is sent and
    the decorator repeats nothing. The Anthropic adapter does so for a
    model name that its map resolves, the lookup coming first. *)
Theorem missing_credential_exit {lib : Library}
    (messages : list Message.t) (state : State.t) (w : world) :
  (dict_mem (lit "OPENAI_API_KEY") (environ w) = false ->
   chat_with_openai messages state w
   = (inr (chat_with_openai_def messages state), w)
   /\ drain (chat_with_openai_def messages state) w
      = ([], Some (SystemExit 1),
         emit (Printed (VStr (lit "Please set env var OPENAI_API_KEY"))) w))
  /\
  (dict_mem (lit "ANTHROPIC_API_KEY") (environ w) = false ->
   dict_mem (State.model state) ANTHROPIC_MODEL_MAP = true ->
   chat_with_anthropic messages state w
   = (inr (chat_with_anthropic_def messages state), w)
   /\ drain (chat_with_anthropic_def messages state) w
      = ([], Some (SystemExit 1),
         emit (Printed (VStr (lit "Please set env var ANTHROPIC_API_KEY"))) w)).
Proof.
  split.
  - intros Hkey. split; [apply chat_with_openai_call|].
    simpl. now rewrite Hkey.
  - intros Hkey Hmodel. split; [apply chat_with_anthropic_call|].
    unfold dict_mem in Hkey, Hmodel. simpl. unfold actual_model_of.
    destruct (dict_get_model_map (State.model state)) as [N | (a & S & T)].
    + now rewrite N in Hmodel.
    + rewrite S, T. simpl.
      destruct (dict_get (environ w) _); [discriminate | reflexivity].
Qed.

Lemma missing_credential_exit_witness :
  let lib := example_library (lit "openai") in
  let w := mkWorld [] [] [] [] in
  outcome (drain (chat_with_openai_def [] (State.mk (lit "gpt-4") 4096 None)) w)
  = Some (SystemExit 1)
  /\ outcome (drain (chat_with_anthropic_def [] (State.mk (lit "opus") 4096 None))
                    w)
     = Some (SystemExit 1).
Proof.
  intros lib w.
  destruct (@missing_credential_exit lib [] (State.mk (lit "gpt-4") 4096 None) w)
    as [Ho _].
  destruct (@missing_credential_exit lib [] (State.mk (lit "opus") 4096 None) w)
    as [_ Ha].
  split.
  - destruct Ho as [_ ->]; reflexivity.
  - destruct Ha as [_ ->]; reflexivity.
Defined.

(** ** Dispatch *)

(** The branches of [chat] for a configuration it is given: the kind
    [ollama] goes to the Ollama adapter with the flattened prompt, the
    kind [anthropic] to the Anthropic adapter, and the [else] branch,
    taken for [openai] and for a configuration without a kind, to the
    OpenAI adapter. *)
Lemma chat_branches {lib : Library} (messages : list Message.t)
    (state : State.t) (w : world) (config : list (str * value)) :
  get_model_config (State.model state) = inr config ->
  (eq_str (backend_of config) (lit "ollama") = true ->
   chat messages state w
   = (inr (chat_with_ollama (messages_to_prompt messages) state), w)) /\
  (eq_str (backend_of config) (lit "ollama") = false ->
   eq_str (backend_of config) (lit "anthropic") = true ->
   chat messages state w = (inr (chat_with_anthropic_def messages state), w)) /\
  (eq_str (backend_of config) (lit "ollama") = false ->
   eq_str (backend_of config) (lit "anthropic") = false ->
   chat messages state w = (inr (chat_with_openai_def messages state), w)).
Proof.
  intros Hconfig. unfold chat, bind. rewrite Hconfig.
  repeat split.
  - intros ->. reflexivity.
  - intros -> ->. apply chat_with_anthropic_call.
  - intros -> ->. apply chat_with_openai_call.
Qed.

(** C6. With the lookup of the configuration module as the specification
    has it, a model whose configured back-end kind is none of [openai],
    [anthropic] and [ollama] makes the dispatch fail with ConfigError: the
    lookup raises it, [chat] lets it through, no adapter is called and
    nothing has happened in the world. A model whose kind is one of the
    three is handed the stream of the adapter of its kind. *)
Theorem dispatch_rejects_unsupported_kind (lib : Library)
    (registry : list (str * list (str * value)))
    (messages : list Message.t) (state : State.t) (w : world)
    (config : list (str * value)) (kind : value) :
  dict_get registry (State.model state) = Some config ->
  dict_get config (lit "backend") = Some kind ->
  (supported_kind kind = false ->
   @chat (with_registry lib registry) messages state w
   = (inl (ConfigError (State.model state)), w)) /\
  (supported_kind kind = true ->
   @chat (with_registry lib registry) messages state w
   = (inr (if eq_str kind (lit "ollama") then
             @chat_with_ollama (with_registry lib registry)
                               (messages_to_prompt messages) state
           else if eq_str kind (lit "anthropic") then
             @chat_with_anthropic_def (with_registry lib registry)
                                      messages state
           else chat_with_openai_def messages state),
      w)).
Proof.
  intros Hmodel Hkind.
  assert (Hbackend : backend_of config = kind)
    by (unfold backend_of; now rewrite Hkind).
  split; intros Hsupported.
  - unfold chat, bind. cbn [get_model_config with_registry]. unfold lookup.
    now rewrite Hmodel, Hkind, Hsupported.
  - assert (Hconfig : @get_model_config (with_registry lib registry)
                        (State.model state) = inr config).
    { cbn [get_model_config with_registry]. unfold lookup.
      now rewrite Hmodel, Hkind, Hsupported. }
    destruct (@chat_branches (with_registry lib registry) messages state w
                config Hconfig) as (Hollama & Hanthropic & Hopenai).
    rewrite Hbackend in Hollama, Hanthropic, Hopenai.
    destruct (eq_str kind (lit "ollama")); [now apply Hollama|].
    destruct (eq_str kind (lit "anthropic"));
      [now apply Hanthropic | now apply Hopenai].
Qed.

Lemma dispatch_rejects_unsupported_kind_witness :
  let lib := example_library (lit "openai") in
  let registry :=
    [ (lit "gemini-pro", [ (lit "backend", VStr (lit "gemini")) ]);
      (lit "llama3", [ (lit "backend", VStr (lit "ollama")) ]) ] in
  let messages := [Message.mk (lit "user") (lit "hello")] in
  @chat (with_registry lib registry) messages
        (State.mk (lit "gemini-pro") 4096 (Some 1)) (flaky_world [])
  = (inl (ConfigError (lit "gemini-pro")), flaky_world [])
  /\ @chat (with_registry lib registry) messages
           (State.mk (lit "llama3") 4096 (Some 1)) (flaky_world [])
     = (inr (@chat_with_ollama (with_registry lib registry)
                               (messages_to_prompt messages)
                               (State.mk (lit "llama3") 4096 (Some 1))),
        flaky_world []).
Proof.
  intros lib registry messages. split.
  - apply (dispatch_rejects_unsupported_kind lib registry messages
             (State.mk (lit "gemini-pro") 4096 (Some 1)) (flaky_world [])
             [ (lit "backend", VStr (lit "gemini")) ] (VStr (lit "gemini"))
             eq_refl eq_refl).
    reflexivity.
  - apply (dispatch_rejects_unsupported_kind lib registry messages
             (State.mk (lit "llama3") 4096 (Some 1)) (flaky_world [])
             [ (lit "backend", VStr (lit "ollama")) ] (VStr (lit "ollama"))
             eq_refl eq_refl).
    reflexivity.
Defined.

(** ** Persisting the response *)

(** The loop of [main] over a stream that returns has been handed every
    fragment the stream yields in that run; they are strings, and the
    response it built is the text it began with, followed by them. *)
Lemma stream_to_terminal_run (g : gen) :
  forall acc rec w resp received w',
    stream_to_terminal g acc rec w = (inr (resp, received), w') ->
    exists fs,
      drain_with shown g w = (map VStr fs, None, w')
      /\ received = rec ++ map VStr fs
      /\ resp = acc ++ List.concat fs.
Proof.
  induction g as [resume IH] using gen_ind_rest.
  intros acc rec w resp received w'. simpl.
  destruct (resume w) as [v w1 rest | w1 | e w1] eqn:E.
  - destruct v; simpl; try discriminate.
    intros H. destruct (IH _ _ _ _ E _ _ _ _ _ _ H) as (fs & Hrun & -> & ->).
    exists (s :: fs).
    change (shown (VStr s) w1) with (emit (Printed (VStr s)) w1).
    rewrite Hrun. simpl. now rewrite <- !app_assoc.
  - intros H. injection H as <- <- <-. exists []. simpl.
    now rewrite !app_nil_r.
  - discriminate.
Qed.

(** The claim of C5 fails on the code: in the interactive loop the stream
    that [chat] hands out yields the two fragments [assistant:] and [ hi]
    and returns, the turn completes, and the content stored for the
    assistant is [hi]. *)
Lemma interactive_turn_drops_prefix :
  let lib := example_library (lit "openai") in
  let STATE := State.mk (lit "gpt-4") 4096 (Some 1) in
  let p := mkProcess prefixed_answer (Db.mk [] 0) in
  let history := [Message.mk (lit "user") (lit "q")] in
  let asking :=
    emit (Printed (VStr ANSWER)) (emit (Printed (VStr [])) prefixed_answer) in
  let stream := chat_with_openai_def history STATE in
  let yielded := fragments (drain_with shown stream asking) in
  let done := interactive_turn STATE (lit "q") p in
  load_conversation_history
    (add_entry (Db.mk [] 0) (lit "user") (lit "q") (Some 1) None) STATE
  = history
  /\ chat history STATE asking = (inr stream, asking)
  /\ yielded = [VStr (lit "assistant:"); VStr (lit " hi")]
  /\ outcome (drain_with shown stream asking) = None
  /\ fst done = inr yielded
  /\ last_content (db_session (snd done)) = Some (lit "hi")
  /\ last_content (db_session (snd done)) <> Some (text_of yielded).
Proof.
  intros lib STATE p history asking stream yielded done.
  repeat (split; [reflexivity|]).
  vm_compute. discriminate.
Qed.

(** Opens a turn into the cases of its steps. *)
Ltac open_turn :=
  unfold bind, store, history, in_world, print_yellow, print, raise, ret, exit;
  cbn [outside db_session].

(** The end of the proof for a turn whose stream returned. *)
Ltac stream_returned Echat Es :=
  let fs := fresh "fs" in
  let Hrun := fresh "Hrun" in
  let H := fresh "H" in
  intros H; inversion H; subst;
  destruct (stream_to_terminal_run _ _ _ _ _ _ _ Es) as (fs & Hrun & -> & ->);
  exists fs;
  split;
    [eexists; eexists;
     split; [first [exact Echat | reflexivity] | now rewrite Hrun]|];
  split; [reflexivity|];
  simpl; now rewrite <- app_assoc.

(** C5, amended. A turn that completes stores two rows, the user's
    message and one row for the assistant; the fragments the stream of
    the turn yields are strings and are not stored one by one. In file
    mode and in one-off mode the content of the assistant's row is the
    concatenation of these fragments. In the interactive loop it is that
    concatenation, unless the concatenation begins with [assistant:]:
    then the first ten characters are dropped and the rest is stripped of
    the white space at both ends. *)
Theorem persisted_response {lib : Library} (STATE : State.t) (input : str)
    (p p' : process) (received : list value) :
  (file_turn STATE input p = (inr (Some received), p') ->
   exists fs,
     turn_fragments STATE p (strip input) fs
     /\ received = map VStr fs
     /\ Db.rows (db_session p')
        = Db.rows (db_session p)
          ++ [ stored (db_session p) STATE (lit "user") (strip input) None;
               stored (db_session p) STATE (lit "assistant")
                      (List.concat fs) None ]) /\
  (one_off_turn STATE input p = (inr received, p') ->
   exists fs,
     turn_fragments STATE p input fs
     /\ received = map VStr fs
     /\ Db.rows (db_session p')
        = Db.rows (db_session p)
          ++ [ stored (db_session p) STATE (lit "user") input None;
               stored (db_session p) STATE (lit "assistant")
                      (List.concat fs) None ]) /\
  (interactive_turn STATE input p = (inr received, p') ->
   exists fs,
     turn_fragments STATE p (strip input) fs
     /\ received = map VStr fs
     /\ Db.rows (db_session p')
        = Db.rows (db_session p)
          ++ [ stored (db_session p) STATE (lit "user") (strip input) None;
               stored (db_session p) STATE (lit "assistant")
                      (without_assistant_prefix (List.concat fs))
                      (Some (State.model STATE)) ]).
Proof.
  unfold turn_fragments. split; [|split].
  - unfold file_turn. destruct (_ <? _); open_turn; [discriminate|].
    destruct (is_empty _); [discriminate|].
    destruct (chat _ STATE _) as [[e1 | g] w1] eqn:Echat;
      cbn [outside db_session]; [discriminate|].
    destruct (stream_to_terminal g [] [] w1) as [[e2 | [resp rcv]] w2] eqn:Es;
      cbn [outside db_session]; [discriminate|].
    stream_returned Echat Es.
  - unfold one_off_turn. destruct (_ <? _); open_turn; [discriminate|].
    destruct (is_empty _); [discriminate|].
    destruct (chat _ STATE _) as [[e1 | g] w1] eqn:Echat;
      cbn [outside db_session]; [discriminate|].
    destruct (stream_to_terminal g [] [] w1) as [[e2 | [resp rcv]] w2] eqn:Es;
      cbn [outside db_session]; [discriminate|].
    stream_returned Echat Es.
  - unfold interactive_turn. open_turn.
    destruct (is_empty _); [discriminate|].
    destruct (chat _ STATE _) as [[e1 | g] w1] eqn:Echat;
      cbn [outside db_session]; [discriminate|].
    destruct (stream_to_terminal g [] [] w1) as [[e2 | [resp rcv]] w2] eqn:Es;
      cbn [outside db_session]; [discriminate|].
    stream_returned Echat Es.
Qed.

Lemma persisted_response_witness :
  let lib := example_library (lit "openai") in
  let STATE := State.mk (lit "gpt-4") 4096 (Some 1) in
  let p := mkProcess prefixed_answer (Db.mk [] 0) in
  let received := [VStr (lit "assistant:"); VStr (lit " hi")] in
  (exists fs,
     turn_fragments STATE p (strip (lit " q ")) fs
     /\ received = map VStr fs
     /\ Db.rows (db_session (snd (file_turn STATE (lit " q ") p)))
        = Db.rows (db_session p)
          ++ [ stored (db_session p) STATE (lit "user") (strip (lit " q ")) None;
               stored (db_session p) STATE (lit "assistant")
                      (List.concat fs) None ]) /\
  (exists fs,
     turn_fragments STATE p (lit " q ") fs
     /\ received = map VStr fs
     /\ Db.rows (db_session (snd (one_off_turn STATE (lit " q ") p)))
        = Db.rows (db_session p)
          ++ [ stored (db_session p) STATE (lit "user") (lit " q ") None;
               stored (db_session p) STATE (lit "assistant")
                      (List.concat fs) None ]) /\
  (exists fs,
     turn_fragments STATE p (strip (lit " q ")) fs
     /\ received = map VStr fs
     /\ Db.rows (db_session (snd (interactive_turn STATE (lit " q ") p)))
        = Db.rows (db_session p)
          ++ [ stored (db_session p) STATE (lit "user") (strip (lit " q ")) None;
               stored (db_session p) STATE (lit "assistant")
                      (without_assistant_prefix (List.concat fs))
                      (Some (State.model STATE)) ]).
Proof.
  intros lib STATE p received. split; [|split].
  - apply (@persisted_response lib STATE (lit " q ") p
             (snd (file_turn STATE (lit " q ") p)) received).
    vm_compute. reflexivity.
  - apply (@persisted_response lib STATE (lit " q ") p
             (snd (one_off_turn STATE (lit " q ") p)) received).
    vm_compute. reflexivity.
  - apply (@persisted_response lib STATE (lit " q ") p
             (snd (interactive_turn STATE (lit " q ") p)) received).
    vm_compute. reflexivity.
Defined.

(** * Further properties *)

(** ** The windower: what is kept and what is dropped *)

Section ScanStop.
Variable max_tokens : Z.

(** Where the loop stops, the next entry would pass the budget. *)
Lemma scan_stop (l : list ConversationEntry.t) :
  forall t, exists dropped,
    map as_message l = scan max_tokens l t [] ++ dropped
    /\ (dropped = []
        \/ exists d rest,
             dropped = d :: rest
             /\ max_tokens
                < t + total_tokens (scan max_tokens l t []) + message_tokens d).
Proof.
  induction l as [|e l IH]; intros t.
  - exists []. split; [reflexivity | now left].
  - rewrite scan_cons. destruct (_ <=? _) eqn:E.
    + destruct (IH (t + message_tokens (as_message e))) as (d & Hd & Hstop).
      exists d. split; [simpl; now rewrite Hd|].
      destruct Hstop as [-> | (x & rest & -> & Hlt)]; [now left|].
      right. exists x, rest. split; [reflexivity|]. simpl. lia.
    + apply Z.leb_gt in E. exists (map as_message (e :: l)).
      split; [reflexivity|]. right.
      exists (as_message e), (map as_message l).
      split; [reflexivity|]. simpl. lia.
Qed.

(** A larger budget keeps at least as much. *)
Lemma scan_budget_monotone (larger : Z) (l : list ConversationEntry.t) :
  max_tokens <= larger ->
  forall t, exists more,
    scan larger l t [] = scan max_tokens l t [] ++ more.
Proof.
  intros Hle. induction l as [|e l IH]; intros t.
  - exists []. reflexivity.
  - rewrite !scan_cons. destruct (_ <=? max_tokens) eqn:E.
    + apply Z.leb_le in E.
      assert ((t + message_tokens (as_message e) <=? larger) = true) as ->
        by (apply Z.leb_le; lia).
      destruct (IH (t + message_tokens (as_message e))) as [more Hm].
      exists more. simpl. now rewrite Hm.
    + simpl. eexists. reflexivity.
Qed.
End ScanStop.

(** The window is the longest suffix that fits: when an entry is dropped,
    the most recent dropped entry, added to what is kept, would pass the
    budget. Nothing older is looked at. *)
Theorem window_maximal (H : list ConversationEntry.t) (B : Z) :
  (List.length (window H B) < List.length H)%nat ->
  exists older d,
    map as_message H = older ++ d :: window H B
    /\ B < message_tokens d + total_tokens (window H B).
Proof.
  intros Hshort.
  destruct (scan_stop B (rev H) 0) as (dropped & Hd & Hstop).
  assert (Hmap : map as_message H = rev dropped ++ window H B).
  { unfold window. rewrite <- rev_app_distr, <- Hd.
    now rewrite map_rev, rev_involutive. }
  destruct Hstop as [-> | (d & rest & -> & Hlt)].
  - exfalso. apply (f_equal (@List.length _)) in Hmap.
    rewrite length_map in Hmap. simpl in Hmap. lia.
  - exists (rev rest), d. split.
    + rewrite Hmap. simpl. now rewrite <- app_assoc.
    + unfold window. rewrite total_tokens_rev. lia.
Qed.

Lemma window_maximal_witness :
  let H := [example_entry "user" "hello"; example_entry "assistant" "hi"] in
  exists older d,
    map as_message H = older ++ d :: window H 3
    /\ 3 < message_tokens d + total_tokens (window H 3).
Proof.
  apply (window_maximal
           [example_entry "user" "hello"; example_entry "assistant" "hi"] 3).
  vm_compute. lia.
Defined.

(** Raising the budget only adds older messages in front of the window. *)
Theorem window_budget_monotone (H : list ConversationEntry.t) (B B' : Z) :
  B <= B' -> exists more, window H B' = more ++ window H B.
Proof.
  intros Hle. destruct (scan_budget_monotone B B' (rev H) Hle 0) as [more Hm].
  exists (rev more). unfold window. now rewrite Hm, rev_app_distr.
Qed.

Lemma window_budget_monotone_witness :
  let H := [example_entry "user" "hello"; example_entry "assistant" "hi"] in
  exists more, window H 10 = more ++ window H 3.
Proof.
  apply (window_budget_monotone
           [example_entry "user" "hello"; example_entry "assistant" "hi"] 3 10).
  lia.
Defined.

(** The whole history is the window exactly when it is empty or its total
    cost is within the budget. *)
Theorem window_whole_history (H : list ConversationEntry.t) (B : Z) :
  window H B = map as_message H <->
  H = [] \/ total_tokens (map as_message H) <= B.
Proof.
  split.
  - intros E. destruct H as [|e H]; [now left|]. right.
    rewrite <- E. apply window_total_kept. rewrite E. discriminate.
  - apply window_of_fitting.
Qed.

(** ** The stored conversation *)

(** Every message of the loaded history is the role and content of a row
    of the table that is at most a week old and, when the state names a
    session, belongs to that session. *)
Theorem load_conversation_history_scope (db_session : Db.t) (state : State.t)
    (m : Message.t) :
  In m (load_conversation_history db_session state) ->
  exists e,
    In e (Db.rows db_session)
    /\ as_message e = m
    /\ Db.utcnow db_session - 604800 <= ConversationEntry.created_at e
    /\ (forall sid, State.session_id state = Some sid ->
                    ConversationEntry.session_id e = Some sid).
Proof.
  unfold load_conversation_history, window. intros Hin.
  apply in_rev in Hin.
  destruct (scan_prefix (State.max_tokens state)
              (rev (get_entries_past_week db_session (State.session_id state)))
              0) as [dropped Hd].
  assert (Hm : In m (map as_message
                       (rev (get_entries_past_week db_session
                               (State.session_id state))))).
  { rewrite Hd. apply in_or_app. now left. }
  apply in_map_iff in Hm. destruct Hm as (e & He & Hin').
  apply in_rev in Hin'. exists e. unfold get_entries_past_week in Hin'.
  destruct (State.session_id state) as [s|].
  - apply filter_In in Hin'. destruct Hin' as [Hin' Hs].
    apply filter_In in Hin'. destruct Hin' as [Hrow Hrecent].
    apply Z.leb_le in Hrecent. unfold weeks in Hrecent.
    split; [exact Hrow|]. split; [exact He|]. split; [lia|].
    intros sid [= <-]. unfold session_matches in Hs.
    destruct (ConversationEntry.session_id e) as [s'|]; [|discriminate].
    apply Z.eqb_eq in Hs. now subst.
  - apply filter_In in Hin'. destruct Hin' as [Hrow Hrecent].
    apply Z.leb_le in Hrecent. unfold weeks in Hrecent.
    split; [exact Hrow|]. split; [exact He|]. split; [lia | discriminate].
Qed.

Lemma load_conversation_history_scope_witness :
  let db_session := Db.mk [example_entry "user" "hello"] 0 in
  let state := State.mk (lit "gpt-4") 4096 (Some 1) in
  exists e,
    In e (Db.rows db_session)
    /\ as_message e = Message.mk (lit "user") (lit "hello")
    /\ Db.utcnow db_session - 604800 <= ConversationEntry.created_at e
    /\ (forall sid, State.session_id state = Some sid ->
                    ConversationEntry.session_id e = Some sid).
Proof.
  apply (load_conversation_history_scope
           (Db.mk [example_entry "user" "hello"] 0)
           (State.mk (lit "gpt-4") 4096 (Some 1))).
  vm_compute. now left.
Defined.

(** An entry just added, stamped with the current time, is the last entry
    of the next query of its own session and of the query without a
    session; the query of any other session does not see it. *)
Theorem add_entry_then_query (db_session : Db.t) (role content : str)
    (session_id : option Z) (model : option str) (asked : option Z) :
  let entry :=
    ConversationEntry.mk role content session_id model (Db.utcnow db_session) in
  get_entries_past_week (add_entry db_session role content session_id model)
                        asked
  = get_entries_past_week db_session asked
    ++ match asked with
       | None => [entry]
       | Some sid => if session_matches sid entry then [entry] else []
       end.
Proof.
  intros entry. unfold get_entries_past_week, add_entry.
  cbn [Db.rows Db.utcnow]. rewrite filter_app.
  cbn [filter ConversationEntry.created_at].
  assert ((Db.utcnow db_session - weeks 1 <=? Db.utcnow db_session) = true)
    as -> by (apply Z.leb_le; unfold weeks; lia).
  destruct asked as [sid|]; [|reflexivity].
  rewrite filter_app. cbn [filter]. fold entry.
  now destruct (session_matches sid entry).
Qed.

(** For the session that is asked for, the entry is always seen. *)
Lemma add_entry_then_query_session (db_session : Db.t) (STATE : State.t)
    (role content : str) (model : option str) :
  get_entries_past_week
    (add_entry db_session role content (State.session_id STATE) model)
    (State.session_id STATE)
  = get_entries_past_week db_session (State.session_id STATE)
    ++ [stored db_session STATE role content model].
Proof.
  unfold get_entries_past_week, add_entry, stored.
  cbn [Db.rows Db.utcnow]. rewrite filter_app.
  cbn [filter ConversationEntry.created_at].
  assert ((Db.utcnow db_session - weeks 1 <=? Db.utcnow db_session) = true)
    as -> by (apply Z.leb_le; unfold weeks; lia).
  destruct (State.session_id STATE) as [sid|]; [|reflexivity].
  rewrite filter_app. cbn [filter]. unfold session_matches at 2.
  cbn [ConversationEntry.session_id]. now rewrite Z.eqb_refl.
Qed.

(** ** The flattened prompt *)

Lemma messages_to_prompt_from (ms : list Message.t) :
  forall prompt,
    fold_left
      (fun prompt message =>
         prompt ++ Message.role message ++ lit ": "
                ++ Message.content message ++ NL)
      ms prompt
    = prompt ++ messages_to_prompt ms.
Proof.
  unfold messages_to_prompt.
  induction ms as [|m ms IH]; intros prompt; simpl.
  - now rewrite app_nil_r.
  - rewrite IH. rewrite (IH (_ ++ _)). now rewrite <- !app_assoc.
Qed.

Lemma messages_to_prompt_cons (m : Message.t) (ms : list Message.t) :
  messages_to_prompt (m :: ms)
  = entry_text (Message.role m) (Message.content m) ++ messages_to_prompt ms.
Proof.
  unfold messages_to_prompt. cbn [fold_left].
  rewrite messages_to_prompt_from. reflexivity.
Qed.

(** The prompt is one line per message, in the order of the messages: the
    text the windower counted for the entry. So the prompt of two lists
    put together is the two prompts put together. *)
Theorem messages_to_prompt_lines (ms more : list Message.t) :
  messages_to_prompt ms
  = List.concat
      (map (fun m => entry_text (Message.role m) (Message.content m)) ms)
  /\ messages_to_prompt (ms ++ more)
     = messages_to_prompt ms ++ messages_to_prompt more.
Proof.
  split.
  - induction ms as [|m ms IH]; [reflexivity|].
    rewrite messages_to_prompt_cons, IH. reflexivity.
  - unfold messages_to_prompt at 1. rewrite fold_left_app.
    fold (messages_to_prompt ms). apply messages_to_prompt_from.
Qed.

(** The estimate of the whole prompt is at least the sum the windower
    compared with the budget, and exceeds it by less than three quarters
    of a token per message: the prompt of a window can be estimated above
    the budget. *)
Theorem prompt_tokens_bounds (ms : list Message.t) :
  total_tokens ms <= count_tokens (messages_to_prompt ms)
  /\ 4 * count_tokens (messages_to_prompt ms)
     <= 4 * total_tokens ms + 3 * Z.of_nat (List.length ms).
Proof.
  assert (Hlen : 4 * total_tokens ms <= len (messages_to_prompt ms)
                 <= 4 * total_tokens ms + 3 * Z.of_nat (List.length ms)).
  { induction ms as [|m ms IH].
    - unfold len. simpl. lia.
    - rewrite messages_to_prompt_cons, len_app.
      change (total_tokens (m :: ms))
        with (message_tokens m + total_tokens ms).
      change (List.length (m :: ms)) with (S (List.length ms)).
      unfold message_tokens, entry_token_count, count_tokens.
      pose proof (Z.div_mod (len (entry_text (Message.role m)
                                             (Message.content m))) 4).
      pose proof (Z.mod_pos_bound
                    (len (entry_text (Message.role m) (Message.content m))) 4).
      lia. }
  unfold count_tokens at 1 2.
  pose proof (Z.div_mod (len (messages_to_prompt ms)) 4).
  pose proof (Z.mod_pos_bound (len (messages_to_prompt ms)) 4).
  lia.
Qed.

Example prompt_above_budget :
  let H := [example_entry "user" "hello!!"; example_entry "assistant" "hi"] in
  total_tokens (window H 6) = 6
  /\ count_tokens (messages_to_prompt (window H 6)) = 7.
Proof. split; reflexivity. Qed.

(** ** Reading the streams *)

(** A loop whose body has no effect gives what its items give, up to the
    first exception, and leaves the world as it is. *)
Lemma drain_for_each_pure {A : Type} (f : A -> exn + option value)
    (items : list A) (cut : option exn) (w : world) :
  drain (Suspended (for_each (fun x w' => (f x, w')) items cut)) w
  = (fst (collect (map f items) cut), snd (collect (map f items) cut), w).
Proof.
  induction items as [|x later IH].
  - simpl. now destruct cut.
  - rewrite drain_for_each_cons. cbv beta. cbn [map collect].
    destruct (f x) as [e | [v|]]; [reflexivity | | exact IH].
    rewrite IH. now destruct (collect (map f later) cut).
Qed.

Lemma collect_read {A : Type} (f : A -> exn + option value)
    (items : list A) (results : list (option value))
    (tail : list (exn + option value)) (cut : option exn) :
  Forall2 (fun x r => f x = inr r) items results ->
  collect (map f items ++ tail) cut
  = (somes results ++ fst (collect tail cut), snd (collect tail cut)).
Proof.
  induction 1 as [|x r items results Hx _ IH]; simpl.
  - now destruct (collect tail cut).
  - rewrite Hx, IH. now destruct r.
Qed.

Section Streams.
Context {lib : Library}.

Lemma anthropic_line_reads (line : bytes) (r : option value) :
  anthropic_reads line r -> anthropic_line line = inr r.
Proof.
  unfold anthropic_line. destruct r as [text|].
  - intros (s & payload & delta & -> & -> & -> & -> & -> & ->). reflexivity.
  - intros (s & -> & [-> | (payload & type & -> & -> & -> & -> & ->)]);
      reflexivity.
Qed.

Lemma anthropic_line_error (line : bytes) (error : value) :
  error_frame line error ->
  anthropic_line line
  = inl (error_raised
           (lit "Error receiving response from anthropic server: ") error).
Proof.
  unfold anthropic_line, error_raised.
  intros (s & payload & -> & -> & -> & -> & ->).
  cbn [eq_str]. change (str_eqb (lit "error") (lit "content_block_delta"))
    with false.
  change (str_eqb (lit "error") (lit "error")) with true. cbv iota.
  now destruct (str_add _ error).
Qed.

Lemma anthropic_line_untyped (line : bytes) :
  untyped_frame line -> anthropic_line line = inl (KeyError (lit "type")).
Proof.
  unfold anthropic_line. intros (s & fields & -> & -> & -> & Hnone).
  unfold getitem. now rewrite Hnone.
Qed.

(** The Anthropic adapter, with its alias resolved and its credential
    set, on a response that opens: one request, and then the lines up to
    the first one whose reading raises. *)
Lemma anthropic_stream (messages : list Message.t) (state : State.t)
    (w : world) (key actual : str) (lines : list bytes) (cut : option exn)
    (later : list (reply bytes)) :
  actual_model_of (State.model state) = inr actual ->
  dict_get (environ w) (lit "ANTHROPIC_API_KEY") = Some key ->
  http w = Opened lines cut :: later ->
  drain (chat_with_anthropic_def messages state) w
  = (fst (collect (map anthropic_line lines) cut),
     snd (collect (map anthropic_line lines) cut),
     set_http later
       (emit (Sent (AnthropicMessages key actual 4096 messages)) w)).
Proof.
  intros Hmodel Hkey Hhttp.
  rewrite <- (drain_for_each_pure anthropic_line).
  apply drain_resumed. rewrite Hmodel, Hkey.
  unfold requests_post. cbn [http emit]. now rewrite Hhttp.
Qed.

(** The request of the Anthropic adapter carries the credential of the
    environment, the identifier the alias stands for, an output limit of
    4096 tokens and the messages as they are; on a response whose lines
    are text frames and lines it passes over, the fragments are the texts
    of the frames in order, the stream ends as the response ends, and
    nothing but the request has happened. *)
Theorem anthropic_stream_text (messages : list Message.t) (state : State.t)
    (w : world) (key actual : str) (lines : list bytes)
    (results : list (option value)) (cut : option exn)
    (later : list (reply bytes)) :
  actual_model_of (State.model state) = inr actual ->
  dict_get (environ w) (lit "ANTHROPIC_API_KEY") = Some key ->
  http w = Opened lines cut :: later ->
  Forall2 anthropic_reads lines results ->
  drain (chat_with_anthropic_def messages state) w
  = (somes results, cut,
     set_http later
       (emit (Sent (AnthropicMessages key actual 4096 messages)) w)).
Proof.
  intros Hmodel Hkey Hhttp Hreads.
  rewrite (anthropic_stream messages state w _ _ _ _ _ Hmodel Hkey Hhttp).
  assert (Hc : collect (map anthropic_line lines ++ []) cut
               = (somes results ++ [], cut)).
  { apply (collect_read anthropic_line).
    eapply Forall2_impl; [|exact Hreads].
    intros line r. apply anthropic_line_reads. }
  rewrite !app_nil_r in Hc. now rewrite Hc.
Qed.

(** An error frame ends the stream of the Anthropic adapter: the
    fragments of the lines before it have been yielded, no line after it
    is read, and the exception carries the server's message after
    [Error receiving response from anthropic server: ] when the field
    [error] is a string, and is the [TypeError] of the concatenation when
    it is not. A frame whose object has no key [type] ends the stream with
    the [KeyError] of that key. *)
Theorem anthropic_stream_aborts (messages : list Message.t) (state : State.t)
    (w : world) (key actual : str) (good : list bytes) (bad : bytes)
    (unread : list bytes) (results : list (option value)) (error : value)
    (cut : option exn) (later : list (reply bytes)) :
  actual_model_of (State.model state) = inr actual ->
  dict_get (environ w) (lit "ANTHROPIC_API_KEY") = Some key ->
  http w = Opened (good ++ bad :: unread) cut :: later ->
  Forall2 anthropic_reads good results ->
  let after :=
    set_http later
      (emit (Sent (AnthropicMessages key actual 4096 messages)) w) in
  (error_frame bad error ->
   drain (chat_with_anthropic_def messages state) w
   = (somes results,
      Some (error_raised
              (lit "Error receiving response from anthropic server: ") error),
      after))
  /\ (untyped_frame bad ->
      drain (chat_with_anthropic_def messages state) w
      = (somes results, Some (KeyError (lit "type")), after)).
Proof.
  intros Hmodel Hkey Hhttp Hreads after.
  assert (Hstop : forall e, anthropic_line bad = inl e ->
            drain (chat_with_anthropic_def messages state) w
            = (somes results, Some e, after)).
  { intros e Hbad.
    rewrite (anthropic_stream messages state w _ _ _ _ _ Hmodel Hkey Hhttp).
    rewrite map_app.
    rewrite (collect_read anthropic_line good results).
    - simpl. rewrite Hbad. simpl. now rewrite app_nil_r.
    - eapply Forall2_impl; [|exact Hreads].
      intros line r. apply anthropic_line_reads. }
  split; intros Hbad; apply Hstop.
  - now apply anthropic_line_error.
  - now apply anthropic_line_untyped.
Qed.

End Streams.

Lemma anthropic_stream_text_witness :
  let lib := table_library anthropic_table in
  let state := State.mk (lit "opus") 4096 (Some 1) in
  let lines := [lit "data: hi"; lit "event: ping"; lit "data: ping"] in
  fst (drain (chat_with_anthropic_def [] state) (answering lines []))
  = ([VStr (lit "Hi")], None).
Proof.
  intros lib state lines.
  rewrite (@anthropic_stream_text lib [] state (answering lines [])
             (lit "sk-ant") (lit "claude-3-opus-20240229") lines
             [Some (VStr (lit "Hi")); None; None] None []);
    try reflexivity.
  repeat constructor.
  - eexists. eexists. eexists. repeat (split; [reflexivity|]). reflexivity.
  - eexists. split; [reflexivity|]. now left.
  - eexists. split; [reflexivity|]. right. eexists. eexists.
    repeat (split; [reflexivity|]). reflexivity.
Defined.

Lemma anthropic_stream_aborts_witness :
  let lib := table_library anthropic_table in
  let state := State.mk (lit "opus") 4096 (Some 1) in
  fst (drain (chat_with_anthropic_def [] state)
             (answering [lit "data: hi"; lit "data: boom"; lit "data: hi"] []))
  = ([VStr (lit "Hi")],
     Some (Exception_
             (lit "Error receiving response from anthropic server: rate limited")))
  /\ fst (drain (chat_with_anthropic_def [] state)
                (answering [lit "data: hi"; lit "data: odd"; lit "data: hi"] []))
     = ([VStr (lit "Hi")], Some (KeyError (lit "type"))).
Proof.
  intros lib state.
  assert (Hgood : Forall2 anthropic_reads [lit "data: hi"]
                          [Some (VStr (lit "Hi"))]).
  { repeat constructor. eexists. eexists. eexists.
    repeat (split; [reflexivity|]). reflexivity. }
  split.
  - destruct (@anthropic_stream_aborts lib [] state
                (answering [lit "data: hi"; lit "data: boom"; lit "data: hi"] [])
                (lit "sk-ant") (lit "claude-3-opus-20240229")
                [lit "data: hi"] (lit "data: boom") [lit "data: hi"]
                [Some (VStr (lit "Hi"))] (VStr (lit "rate limited")) None []
                eq_refl eq_refl eq_refl Hgood)
      as [Herror _].
    rewrite Herror; [reflexivity|].
    eexists. eexists. repeat (split; [reflexivity|]). reflexivity.
  - destruct (@anthropic_stream_aborts lib [] state
                (answering [lit "data: hi"; lit "data: odd"; lit "data: hi"] [])
                (lit "sk-ant") (lit "claude-3-opus-20240229")
                [lit "data: hi"] (lit "data: odd") [lit "data: hi"]
                [Some (VStr (lit "Hi"))] VNone None []
                eq_refl eq_refl eq_refl Hgood)
      as [_ Huntyped].
    rewrite Huntyped; [reflexivity|].
    eexists. eexists. repeat (split; [reflexivity|]). reflexivity.
Defined.

Section OllamaStream.
Context {lib : Library}.

Lemma ollama_line_reads (line : bytes) (r : option value) :
  ollama_reads line r -> ollama_line line = inr r.
Proof.
  unfold ollama_line. destruct r as [response|].
  - intros (s & chunk & Hline & -> & -> & -> & ->).
    destruct line; [congruence | reflexivity].
  - intros ->. reflexivity.
Qed.

Lemma ollama_line_error (line : bytes) (error : value) :
  ollama_error line error ->
  ollama_line line
  = inl (error_raised (lit "Error receiving response from ollama server: ")
                      error).
Proof.
  unfold ollama_line, error_raised.
  intros (s & chunk & Hline & -> & -> & -> & ->).
  destruct line; [congruence|]. now destruct (str_add _ error).
Qed.

Lemma ollama_stream (prompt : str) (state : State.t) (w : world)
    (lines : list bytes) (cut : option exn) (later : list (reply bytes)) :
  http w = Opened lines cut :: later ->
  drain (chat_with_ollama prompt state) w
  = (fst (collect (map ollama_line lines) cut),
     snd (collect (map ollama_line lines) cut),
     set_http later (emit (Sent (OllamaGenerate (State.model state) prompt)) w)).
Proof.
  intros Hhttp. rewrite <- (drain_for_each_pure ollama_line).
  apply drain_resumed. unfold requests_post. cbn [http emit].
  now rewrite Hhttp.
Qed.

(** The Ollama adapter asks for no credential: whatever the environment,
    it sends one request with the model name of the state and the prompt.
    On a response whose lines are empty or objects with a field
    [response] and without the key [error], the fragments are those
    fields in order, empty lines give nothing, the stream ends as the
    response ends, and nothing but the request has happened. *)
Theorem ollama_stream_text (prompt : str) (state : State.t) (w : world)
    (lines : list bytes) (results : list (option value)) (cut : option exn)
    (later : list (reply bytes)) :
  http w = Opened lines cut :: later ->
  Forall2 ollama_reads lines results ->
  drain (chat_with_ollama prompt state) w
  = (somes results, cut,
     set_http later (emit (Sent (OllamaGenerate (State.model state) prompt)) w)).
Proof.
  intros Hhttp Hreads. rewrite (ollama_stream prompt state w _ _ _ Hhttp).
  assert (Hc : collect (map ollama_line lines ++ []) cut
               = (somes results ++ [], cut)).
  { apply (collect_read ollama_line).
    eapply Forall2_impl; [|exact Hreads].
    intros line r. apply ollama_line_reads. }
  rewrite !app_nil_r in Hc. now rewrite Hc.
Qed.

(** A line with the key [error] ends the stream of the Ollama adapter:
    the fragments of the lines before it have been yielded, no line after
    it is read, and the exception carries the server's message after
    [Error receiving response from ollama server: ] when the field is a
    string, and is the [TypeError] of the concatenation when it is not. *)
Theorem ollama_stream_aborts (prompt : str) (state : State.t) (w : world)
    (good : list bytes) (bad : bytes) (unread : list bytes)
    (results : list (option value)) (error : value) (cut : option exn)
    (later : list (reply bytes)) :
  http w = Opened (good ++ bad :: unread) cut :: later ->
  Forall2 ollama_reads good results ->
  ollama_error bad error ->
  drain (chat_with_ollama prompt state) w
  = (somes results,
     Some (error_raised (lit "Error receiving response from ollama server: ")
                        error),
     set_http later (emit (Sent (OllamaGenerate (State.model state) prompt)) w)).
Proof.
  intros Hhttp Hreads Hbad.
  rewrite (ollama_stream prompt state w _ _ _ Hhttp). rewrite map_app.
  rewrite (collect_read ollama_line good results).
  - simpl. rewrite (ollama_line_error _ _ Hbad). simpl. now rewrite app_nil_r.
  - eapply Forall2_impl; [|exact Hreads].
    intros line r. apply ollama_line_reads.
Qed.

End OllamaStream.

Lemma ollama_stream_text_witness :
  let lib := table_library ollama_table in
  let state := State.mk (lit "llama3") 4096 (Some 1) in
  let w := mkWorld [] [Opened [lit "hi"; []; lit "hi"] None] [] [] in
  fst (drain (chat_with_ollama (lit "user: hello") state) w)
  = ([VStr (lit "Hi"); VStr (lit "Hi")], None).
Proof.
  intros lib state w.
  assert (Hreads : Forall2 ollama_reads [lit "hi"; []; lit "hi"]
                     [Some (VStr (lit "Hi")); None; Some (VStr (lit "Hi"))]).
  { repeat constructor;
      (eexists; eexists; split; [discriminate|];
       repeat (split; [reflexivity|]); reflexivity). }
  rewrite (@ollama_stream_text lib (lit "user: hello") state w
             [lit "hi"; []; lit "hi"]
             [Some (VStr (lit "Hi")); None; Some (VStr (lit "Hi"))] None []
             eq_refl Hreads).
  reflexivity.
Defined.

Lemma ollama_stream_aborts_witness :
  let lib := table_library ollama_table in
  let state := State.mk (lit "llama3") 4096 (Some 1) in
  let w := mkWorld [] [Opened [lit "hi"; lit "boom"; lit "hi"] None] [] [] in
  fst (drain (chat_with_ollama (lit "user: hello") state) w)
  = ([VStr (lit "Hi")],
     Some (Exception_
             (lit "Error receiving response from ollama server: no such model"))).
Proof.
  intros lib state w.
  assert (Hreads : Forall2 ollama_reads [lit "hi"] [Some (VStr (lit "Hi"))]).
  { repeat constructor. eexists. eexists. split; [discriminate|].
    repeat (split; [reflexivity|]). reflexivity. }
  assert (Hbad : ollama_error (lit "boom") (VStr (lit "no such model"))).
  { eexists. eexists. split; [discriminate|].
    repeat (split; [reflexivity|]). reflexivity. }
  rewrite (@ollama_stream_aborts lib (lit "user: hello") state w
             [lit "hi"] (lit "boom") [lit "hi"] [Some (VStr (lit "Hi"))]
             (VStr (lit "no such model")) None [] eq_refl Hreads Hbad).
  reflexivity.
Defined.

Lemma logged_nil (w : world) : logged [] w = w.
Proof. destruct w. unfold logged. simpl. now rewrite app_nil_r. Qed.

Lemma logged_logged (a b : list event) (w : world) :
  logged b (logged a w) = logged (a ++ b) w.
Proof. unfold logged. simpl. now rewrite app_assoc. Qed.

Lemma openai_chunk_reads (chunk : Chunk.t) (w : world) :
  openai_chunk chunk w = (inr (chunk_text chunk), logged (chunk_notice chunk) w).
Proof.
  destruct chunk as [[|[| |[|c s]] others]];
    unfold openai_chunk, chunk_text, chunk_notice; simpl;
    unfold ret; rewrite ?logged_nil; reflexivity.
Qed.

Lemma drain_openai_chunks (chunks : list Chunk.t) (cut : option exn) :
  forall w,
    drain (Suspended (for_each openai_chunk chunks cut)) w
    = (somes (map chunk_text chunks), cut,
       logged (flat_map chunk_notice chunks) w).
Proof.
  induction chunks as [|chunk later IH]; intros w.
  - simpl. rewrite logged_nil. now destruct cut.
  - rewrite drain_for_each_cons, openai_chunk_reads.
    cbn [map flat_map]. unfold somes. cbn [flat_map]. fold (@somes value).
    destruct (chunk_text chunk) as [v|]; rewrite IH, logged_logged;
      reflexivity.
Qed.

(** The OpenAI adapter with its credential set, on a response that opens:
    one request with the model name of the state and the messages as they
    are; the fragments are the non-empty contents of the first choice of
    the chunks, in order; a chunk without choices or without the attribute
    has a notice printed and does not end the stream; the stream ends as
    the response ends. *)
Theorem openai_stream_text (messages : list Message.t) (state : State.t)
    (w : world) (chunks : list Chunk.t) (cut : option exn)
    (later : list (reply Chunk.t)) :
  dict_mem (lit "OPENAI_API_KEY") (environ w) = true ->
  openai_api w = Opened chunks cut :: later ->
  drain (chat_with_openai_def messages state) w
  = (somes (map chunk_text chunks), cut,
     logged (flat_map chunk_notice chunks)
       (set_openai_api later
          (emit (Sent (OpenAICompletion (State.model state) messages)) w))).
Proof.
  intros Hkey Hopen. rewrite <- drain_openai_chunks.
  apply drain_resumed. rewrite Hkey. cbn [negb].
  unfold openai_create. cbn [openai_api emit]. now rewrite Hopen.
Qed.

Lemma openai_stream_text_witness :
  let state := State.mk (lit "gpt-4") 4096 (Some 1) in
  let chunks := [ Chunk.mk [Chunk.IsNone]; Chunk.mk [Chunk.Text (lit "Hi")];
                  Chunk.mk []; Chunk.mk [Chunk.Text []];
                  Chunk.mk [Chunk.Text (lit " there")] ] in
  fst (drain (chat_with_openai_def [] state) (answering [] chunks))
  = ([VStr (lit "Hi"); VStr (lit " there")], None).
Proof.
  intros state chunks.
  rewrite (openai_stream_text [] state (answering [] chunks) chunks None []
             eq_refl eq_refl).
  reflexivity.
Defined.

(** ** Dispatch has no effect *)

(** Whatever the configuration, and also when the model has none,
    [chat] leaves the world as it found it: no request is sent, nothing is
    printed and nothing is awaited before the stream is consumed. *)
Theorem chat_sends_nothing {lib : Library} (messages : list Message.t)
    (state : State.t) (w : world) :
  snd (chat messages state w) = w
  /\ (forall e, get_model_config (State.model state) = inl e ->
                chat messages state w = (inl e, w)).
Proof.
  unfold chat, bind. split.
  - destruct (get_model_config (State.model state)) as [e | config];
      [reflexivity|].
    destruct (eq_str (backend_of config) (lit "ollama")); [reflexivity|].
    destruct (eq_str (backend_of config) (lit "anthropic")).
    + now rewrite chat_with_anthropic_call.
    + now rewrite chat_with_openai_call.
  - intros e ->. reflexivity.
Qed.

Lemma chat_sends_nothing_witness :
  let lib := {| decode_utf8 := fun line => inr line;
                json_loads := fun _ => inl JSONDecodeError;
                get_model_config := fun model => inl (KeyError model);
                ANSWER := [] |} in
  let state := State.mk (lit "unknown") 4096 None in
  chat [] state (flaky_world []) = (inl (KeyError (lit "unknown")), flaky_world []).
Proof.
  intros lib state.
  apply (@chat_sends_nothing lib [] state (flaky_world [])). reflexivity.
Defined.

(** ** Turns that fail, and messages that do not fit *)

Lemma window_latest (H : list ConversationEntry.t) (e : ConversationEntry.t)
    (B : Z) :
  (message_tokens (as_message e) <= B ->
   exists older, window (H ++ [e]) B = older ++ [as_message e])
  /\ (B < message_tokens (as_message e) -> window (H ++ [e]) B = []).
Proof.
  unfold window. rewrite rev_app_distr. cbn [rev app]. rewrite scan_cons.
  split; intros Hcost.
  - assert ((0 + message_tokens (as_message e) <=? B) = true) as ->
      by (apply Z.leb_le; lia).
    eexists. cbn [rev]. reflexivity.
  - assert ((0 + message_tokens (as_message e) <=? B) = false) as ->
      by (apply Z.leb_gt; lia).
    reflexivity.
Qed.

Lemma history_after_store (db : Db.t) (STATE : State.t) (role content : str)
    (model : option str) :
  load_conversation_history
    (add_entry db role content (State.session_id STATE) model) STATE
  = window (get_entries_past_week db (State.session_id STATE)
              ++ [stored db STATE role content model])
           (State.max_tokens STATE).
Proof.
  unfold load_conversation_history. rewrite add_entry_then_query_session.
  reflexivity.
Qed.

(** A message just stored for the session of the state is the last
    message of the history loaded next when its entry fits the budget, and
    the history is empty when it does not: what is sent to a back end ends
    with the message of the turn. *)
Theorem history_ends_with_stored_message (db : Db.t) (STATE : State.t)
    (role content : str) (model : option str) :
  let after := add_entry db role content (State.session_id STATE) model in
  (entry_token_count role content <= State.max_tokens STATE ->
   exists older,
     load_conversation_history after STATE
     = older ++ [Message.mk role content])
  /\ (State.max_tokens STATE < entry_token_count role content ->
      load_conversation_history after STATE = []).
Proof.
  intros after. unfold after. rewrite history_after_store.
  apply (window_latest _ (stored db STATE role content model)).
Qed.

Lemma history_ends_with_stored_message_witness :
  let STATE := State.mk (lit "gpt-4") 3 (Some 1) in
  let db := Db.mk [example_entry "assistant" "hi"] 0 in
  (exists older,
     load_conversation_history
       (add_entry db (lit "user") (lit "hello") (Some 1) None) STATE
     = older ++ [Message.mk (lit "user") (lit "hello")])
  /\ load_conversation_history
       (add_entry db (lit "user") (lit "hello, world") (Some 1) None) STATE
     = [].
Proof.
  intros STATE db. split.
  - apply (history_ends_with_stored_message db STATE (lit "user") (lit "hello")
             None).
    vm_compute. discriminate.
  - apply (history_ends_with_stored_message db STATE (lit "user")
             (lit "hello, world") None).
    vm_compute. reflexivity.
Defined.

(** A turn that fails has stored the user's message and no response,
    whatever was printed of the stream before: the exception comes from
    the empty history, from the dispatch or from the stream, and in each
    case the table has the one new row. In one-off mode the turn can also
    fail on the length of the question, with [exit(1)] and no new row. *)
Theorem failed_turn_stores_no_response {lib : Library} (STATE : State.t)
    (input : str) (p p' : process) (e : exn) :
  (file_turn STATE input p = (inl e, p') ->
   Db.rows (db_session p')
   = Db.rows (db_session p)
     ++ [stored (db_session p) STATE (lit "user") (strip input) None]) /\
  (one_off_turn STATE input p = (inl e, p') ->
   (State.max_tokens STATE < count_tokens input
    /\ e = SystemExit 1 /\ db_session p' = db_session p)
   \/ (count_tokens input <= State.max_tokens STATE
       /\ Db.rows (db_session p')
          = Db.rows (db_session p)
            ++ [stored (db_session p) STATE (lit "user") input None])) /\
  (interactive_turn STATE input p = (inl e, p') ->
   Db.rows (db_session p')
   = Db.rows (db_session p)
     ++ [stored (db_session p) STATE (lit "user") (strip input) None]).
Proof.
  split; [|split].
  - unfold file_turn. destruct (_ <? _); open_turn; [discriminate|].
    destruct (is_empty _).
    { intros H. inversion H. reflexivity. }
    destruct (chat _ STATE _) as [[e1 | g] w1]; cbn [outside db_session].
    { intros H. inversion H. reflexivity. }
    destruct (stream_to_terminal g [] [] w1) as [[e2 | [resp rcv]] w2];
      cbn [outside db_session]; [|discriminate].
    intros H. inversion H. reflexivity.
  - unfold one_off_turn. destruct (_ <? _) eqn:Elong; open_turn.
    { apply Z.ltb_lt in Elong. intros H. inversion H. left. now repeat split. }
    apply Z.ltb_ge in Elong. intros H. right. split; [exact Elong|].
    revert H. destruct (is_empty _).
    { intros H. inversion H. reflexivity. }
    destruct (chat _ STATE _) as [[e1 | g] w1]; cbn [outside db_session].
    { intros H. inversion H. reflexivity. }
    destruct (stream_to_terminal g [] [] w1) as [[e2 | [resp rcv]] w2];
      cbn [outside db_session]; [|discriminate].
    intros H. inversion H. reflexivity.
  - unfold interactive_turn. open_turn.
    destruct (is_empty _).
    { intros H. inversion H. reflexivity. }
    destruct (chat _ STATE _) as [[e1 | g] w1]; cbn [outside db_session].
    { intros H. inversion H. reflexivity. }
    destruct (stream_to_terminal g [] [] w1) as [[e2 | [resp rcv]] w2];
      cbn [outside db_session]; [|discriminate].
    intros H. inversion H. reflexivity.
Qed.

Lemma failed_turn_stores_no_response_witness :
  let lib := example_library (lit "openai") in
  let STATE := State.mk (lit "gpt-4") 4096 (Some 1) in
  let p := mkProcess (flaky_world []) (Db.mk [] 0) in
  Db.rows (db_session (snd (interactive_turn STATE (lit "q") p)))
  = [stored (db_session p) STATE (lit "user") (lit "q") None]
  /\ Db.rows (db_session (snd (file_turn STATE (lit "q") p)))
     = [stored (db_session p) STATE (lit "user") (lit "q") None]
  /\ Db.rows (db_session (snd (one_off_turn STATE (lit "q") p)))
     = [stored (db_session p) STATE (lit "user") (lit "q") None].
Proof.
  intros lib STATE p.
  destruct (@failed_turn_stores_no_response lib STATE (lit "q") p
              (snd (interactive_turn STATE (lit "q") p)) ConnectionError)
    as (_ & _ & Hi).
  destruct (@failed_turn_stores_no_response lib STATE (lit "q") p
              (snd (file_turn STATE (lit "q") p)) ConnectionError)
    as (Hf & _ & _).
  destruct (@failed_turn_stores_no_response lib STATE (lit "q") p
              (snd (one_off_turn STATE (lit "q") p)) ConnectionError)
    as (_ & Ho & _).
  split; [exact (Hi eq_refl) | split; [exact (Hf eq_refl)|]].
  destruct (Ho eq_refl) as [(Hlong & _) | (_ & Hrows)]; [|exact Hrows].
  vm_compute in Hlong. discriminate.
Defined.

Lemma entry_costs_more (role content : str) :
  role <> [] -> count_tokens content < entry_token_count role content.
Proof.
  intros Hrole. unfold entry_token_count, count_tokens.
  rewrite entry_text_len.
  assert (1 <= len role).
  { destruct role; [congruence|]. unfold len. simpl. lia. }
  pose proof (Z.div_mod (len content) 4).
  pose proof (Z.mod_pos_bound (len content) 4).
  assert (len content / 4 + 1 <= (len role + len content + 3) / 4);
    [apply Z.div_le_lower_bound; lia | lia].
Qed.

(** A message whose entry does not fit the budget ends the turn with
    [ValueError("Conversation history is empty")]: the message has been
    stored, nothing has been printed and no back end is asked. The length
    check of the one-off mode does not prevent this: it compares the
    estimate of the question alone, and the entry always costs more, so a
    question estimated at exactly the budget passes the check and fails
    here. *)
Theorem unfit_message_fails_the_turn {lib : Library} (STATE : State.t)
    (input : str) (p : process) :
  let failure (message : str) :=
    (@inl exn (list value)
       (ValueError (lit "Conversation history is empty")),
     mkProcess (outside p)
       (add_entry (db_session p) (lit "user") message
                  (State.session_id STATE) None)) in
  (State.max_tokens STATE < entry_token_count (lit "user") (strip input) ->
   interactive_turn STATE input p = failure (strip input)) /\
  (count_tokens input <= State.max_tokens STATE ->
   State.max_tokens STATE < entry_token_count (lit "user") input ->
   one_off_turn STATE input p = failure input) /\
  (count_tokens input = State.max_tokens STATE ->
   one_off_turn STATE input p = failure input).
Proof.
  intros failure.
  assert (Hone : count_tokens input <= State.max_tokens STATE ->
                 State.max_tokens STATE < entry_token_count (lit "user") input ->
                 one_off_turn STATE input p = failure input).
  { intros Hguard Hcost. unfold one_off_turn.
    assert ((State.max_tokens STATE <? count_tokens input) = false) as ->
      by (apply Z.ltb_ge; exact Hguard).
    open_turn. rewrite history_after_store.
    destruct (window_latest
                (get_entries_past_week (db_session p) (State.session_id STATE))
                (stored (db_session p) STATE (lit "user") input None)
                (State.max_tokens STATE)) as [_ Hempty].
    rewrite (Hempty Hcost). reflexivity. }
  split; [|split; [exact Hone|]].
  - intros Hcost. unfold interactive_turn. open_turn.
    rewrite history_after_store.
    destruct (window_latest
                (get_entries_past_week (db_session p) (State.session_id STATE))
                (stored (db_session p) STATE (lit "user") (strip input) None)
                (State.max_tokens STATE)) as [_ Hempty].
    rewrite (Hempty Hcost). reflexivity.
  - intros Heq. apply Hone; [lia|]. rewrite <- Heq.
    apply entry_costs_more. discriminate.
Qed.

Lemma unfit_message_fails_the_turn_witness :
  let lib := example_library (lit "openai") in
  let STATE := State.mk (lit "gpt-4") 1 (Some 1) in
  let p := mkProcess (flaky_world []) (Db.mk [] 0) in
  fst (one_off_turn STATE (lit "abcd") p)
  = inl (ValueError (lit "Conversation history is empty"))
  /\ fst (interactive_turn STATE (lit "abcd") p)
     = inl (ValueError (lit "Conversation history is empty")).
Proof.
  intros lib STATE p.
  destruct (@unfit_message_fails_the_turn lib STATE (lit "abcd") p)
    as (Hi & _ & Ho).
  split.
  - rewrite Ho; reflexivity.
  - rewrite Hi; [reflexivity|]. vm_compute. reflexivity.
Defined.

(** ** How the two batch modes end *)

